(** * map_parser: BSS symbol extraction from a linker map file

    Shallow embedding of [src/map_parser/map_parser.py] and the properties
    of its parser ([parse_map_file]) and reporter ([print_symbols]).

    Conventions of the embedding.
    - Text is [string]; a character is an [ascii] code point.  The input is
      read as ASCII text: the classes [\s] and [\w] are the ones Python's
      [re] and [str.strip] use on code points below 128.
    - Python integers are unbounded: they are [Z].
    - The regular expressions of the source are values of [re], matched by a
      backtracking matcher that lists the successful matches in the order
      Python's engine tries them; the first one is the match Python returns.
    - Exceptions are values of [exn]; a [try] body is a computation in
      [exn + A]; [sys.exit] is the [SysExit] outcome. *)

From Stdlib Require Import ZArith Ascii String List Lia Bool.
From Stdlib Require Import DecimalString HexadecimalString Sorted Permutation.
From stdpp Require Import gmap strings list.

Local Open Scope Z_scope.

(** ** Characters *)

Module Chr.

Definition code (c : ascii) : N := N_of_ascii c.

Definition between (lo hi c : ascii) : bool :=
  ((code lo <=? code c) && (code c <=? code hi))%N.

Definition is_digit (c : ascii) : bool := between "0" "9" c.
Definition is_lower (c : ascii) : bool := between "a" "z" c.
Definition is_upper (c : ascii) : bool := between "A" "Z" c.

(** [\s] on a [str] pattern and [str.isspace]: tab, LF, VT, FF, CR,
    the separators 0x1c to 0x1f, and space.  These are Python's white
    space characters below 128; on text that is not ASCII Python also
    counts U+0085, U+00A0 and further separators, which the model does
    not. *)
Definition is_space (c : ascii) : bool :=
  between "009" "013" c || between "028" "031" c || (code c =? 32)%N.

(** [\w]: letters, digits and the underscore.  This is Python's class
    below 128; on text that is not ASCII Python also counts the letters
    and digits beyond it, which the model does not. *)
Definition is_word (c : ascii) : bool :=
  is_digit c || is_lower c || is_upper c || (code c =? 95)%N.

Definition lower (c : ascii) : ascii :=
  if is_upper c then ascii_of_N (code c + 32) else c.
Definition upper (c : ascii) : ascii :=
  if is_lower c then ascii_of_N (code c - 32) else c.

Definition is_hex (c : ascii) : bool :=
  is_digit c || between "a" "f" c || between "A" "F" c.

(** Value of a hexadecimal digit. *)
Definition hex_val (c : ascii) : option Z :=
  if is_digit c then Some (Z.of_N (code c) - 48)
  else if between "a" "f" c then Some (Z.of_N (code c) - 87)
  else if between "A" "F" c then Some (Z.of_N (code c) - 55)
  else None.

End Chr.

(** ** Strings: the [str] methods the parser calls *)

Module Str.

Fixpoint all (p : ascii -> bool) (s : string) : bool :=
  match s with
  | EmptyString => true
  | String c s' => p c && all p s'
  end.

Fixpoint rev_onto (s acc : string) : string :=
  match s with
  | EmptyString => acc
  | String c s' => rev_onto s' (String c acc)
  end.
Definition rev (s : string) : string := rev_onto s EmptyString.

Fixpoint lstrip (s : string) : string :=
  match s with
  | String c s' => if Chr.is_space c then lstrip s' else s
  | EmptyString => EmptyString
  end.

(** [s.strip()] *)
Definition strip (s : string) : string := lstrip (rev (lstrip (rev s))).

Fixpoint take (n : nat) (s : string) : string :=
  match n, s with
  | S n', String c s' => String c (take n' s')
  | _, _ => EmptyString
  end.

(** [s.startswith(p)] *)
Fixpoint startswith (p s : string) : bool :=
  match p, s with
  | EmptyString, _ => true
  | String a p', String b s' => Ascii.eqb a b && startswith p' s'
  | String _ _, EmptyString => false
  end.

(** [s.endswith(p)] *)
Definition endswith (s p : string) : bool := startswith (rev p) (rev s).

(** [p in s] *)
Fixpoint contains (p s : string) : bool :=
  startswith p s ||
  match s with
  | EmptyString => false
  | String _ s' => contains p s'
  end.

(** Truth value of a [str]: non-empty. *)
Definition truthy (s : string) : bool :=
  match s with EmptyString => false | String _ _ => true end.

(** [int(s, 16)] on a digit string; [None] stands for [ValueError].
    The parser only ever passes a capture of the class of hex digits
    (the [hexplus] lemmas below), on which this is Python's result. *)
Fixpoint int16_acc (acc : Z) (s : string) : option Z :=
  match s with
  | EmptyString => Some acc
  | String c s' =>
      match Chr.hex_val c with
      | Some d => int16_acc (16 * acc + d) s'
      | None => None
      end
  end.
Definition int16 (s : string) : option Z :=
  match s with
  | EmptyString => None
  | String _ _ => int16_acc 0 s
  end.

End Str.

(** ** Regular expressions

    The fragment of Python's [re] syntax the source uses.  Every repetition
    in the source's patterns is over a single-character class. *)

Module Re.

(** An item of a character class. *)
Inductive citem :=
| CChar (c : ascii)            (* a literal character *)
| CRange (lo hi : ascii)       (* [lo-hi] *)
| CSpace                       (* \s *)
| CNotSpace                    (* \S *)
| CWord                        (* \w *)
| CAny.                        (* .  : anything but a newline *)

Definition cset := list citem.

Inductive re :=
| Eps
| Bol                                        (* ^ *)
| Eol                                        (* $ *)
| WordB                                      (* \b *)
| Sym (cs : cset)                            (* one character of cs *)
| Rep (cs : cset) (lo : nat) (greedy : bool) (* cs{lo,} or cs{lo,}? *)
| Opt (cs : cset)                            (* cs? *)
| Lit (s : string)                           (* literal text *)
| Seq (r1 r2 : re)
| Alt (r1 r2 : re)                           (* r1|r2 *)
| Grp (n : nat) (r : re).                    (* n-th capture group *)

Definition item_has (i : citem) (c : ascii) : bool :=
  match i with
  | CChar a => Ascii.eqb a c
  | CRange lo hi => Chr.between lo hi c
  | CSpace => Chr.is_space c
  | CNotSpace => negb (Chr.is_space c)
  | CWord => Chr.is_word c
  | CAny => negb (Ascii.eqb c "010")
  end.

Definition cset_has (cs : cset) (c : ascii) : bool :=
  existsb (fun i => item_has i c) cs.

(** Membership under the flags of the pattern; [ic] is [re.IGNORECASE]:
    the character matches if it or its other-case form is in the class. *)
Definition in_cset (ic : bool) (cs : cset) (c : ascii) : bool :=
  cset_has cs c ||
  (ic && (cset_has cs (Chr.lower c) || cset_has cs (Chr.upper c))).

(** A position of the matcher in the subject: the character before it,
    the text after it, and the groups captured so far (latest first). *)
Record pos := MkPos {
  before : option ascii;
  rest : string;
  caps : list (nat * string)
}.

Fixpoint group (n : nat) (cp : list (nat * string)) : option string :=
  match cp with
  | [] => None
  | (m, s) :: cp' => if Nat.eqb m n then Some s else group n cp'
  end.

(** Positions after 0, 1, 2, ... characters of the class, shortest first. *)
Fixpoint spans (ic : bool) (cs : cset) (b : option ascii) (s : string)
    (cp : list (nat * string)) : list pos :=
  MkPos b s cp ::
  match s with
  | String c s' => if in_cset ic cs c then spans ic cs (Some c) s' cp else []
  | EmptyString => []
  end.

Fixpoint lit (ic : bool) (l : string) (p : pos) : list pos :=
  match l with
  | EmptyString => [p]
  | String a l' =>
      match rest p with
      | String c s' =>
          if in_cset ic [CChar a] c
          then lit ic l' (MkPos (Some c) s' (caps p))
          else []
      | EmptyString => []
      end
  end.

Definition word_before (p : pos) : bool :=
  match before p with Some c => Chr.is_word c | None => false end.
Definition word_after (p : pos) : bool :=
  match rest p with String c _ => Chr.is_word c | EmptyString => false end.

Definition consumed (p q : pos) : string :=
  Str.take (String.length (rest p) - String.length (rest q))%nat (rest p).

(** All the ways [r] matches at [p], in the order a backtracking engine
    finds them: the left alternative first, a greedy repetition longest
    first, a lazy one shortest first. *)
Fixpoint matches (ic : bool) (r : re) (p : pos) : list pos :=
  match r with
  | Eps => [p]
  | Bol => match before p with None => [p] | Some _ => [] end
  | Eol =>
      match rest p with
      | EmptyString => [p]
      | String c EmptyString => if Ascii.eqb c "010" then [p] else []
      | _ => []
      end
  | WordB => if xorb (word_before p) (word_after p) then [p] else []
  | Sym cs =>
      match rest p with
      | String c s' =>
          if in_cset ic cs c then [MkPos (Some c) s' (caps p)] else []
      | EmptyString => []
      end
  | Rep cs lo greedy =>
      let l := List.skipn lo (spans ic cs (before p) (rest p) (caps p)) in
      if greedy then List.rev l else l
  | Opt cs =>
      match rest p with
      | String c s' =>
          if in_cset ic cs c then [MkPos (Some c) s' (caps p); p] else [p]
      | EmptyString => [p]
      end
  | Lit l => lit ic l p
  | Seq r1 r2 => List.flat_map (matches ic r2) (matches ic r1 p)
  | Alt r1 r2 => matches ic r1 p ++ matches ic r2 p
  | Grp n r1 =>
      List.map (fun q => MkPos (before q) (rest q)
                               ((n, consumed p q) :: caps q))
               (matches ic r1 p)
  end.

(** [pattern.match(s)]: the groups of the first match at the start. *)
Definition re_match (ic : bool) (r : re) (s : string)
    : option (list (nat * string)) :=
  match matches ic r (MkPos None s []) with
  | q :: _ => Some (caps q)
  | [] => None
  end.

(** [pattern.search(s)]: the first match at the leftmost position. *)
Fixpoint search_from (ic : bool) (r : re) (b : option ascii) (s : string)
    : option (list (nat * string)) :=
  match matches ic r (MkPos b s []) with
  | q :: _ => Some (caps q)
  | [] =>
      match s with
      | String c s' => search_from ic r (Some c) s'
      | EmptyString => None
      end
  end.
Definition re_search (ic : bool) (r : re) (s : string) :=
  search_from ic r None s.

(** [m.group(n)] of a group that took part in the match. *)
Definition group_of (m : list (nat * string)) (n : nat) : string :=
  match group n m with Some s => s | None => EmptyString end.

End Re.

Import Re.

Declare Scope re_scope.
Delimit Scope re_scope with re.
Bind Scope re_scope with re.
Infix "⋅" := Seq (at level 41, right associativity) : re_scope.
Infix "∣" := Alt (at level 42, right associativity) : re_scope.

(** The character classes of the source's patterns. *)
Definition ws : cset := [CSpace].                                 (* \s *)
Definition nws : cset := [CNotSpace].                             (* \S *)
Definition hex : cset :=                              (* [0-9a-fA-F] *)
  [CRange "0" "9"; CRange "a" "f"; CRange "A" "F"].
Definition ident_head : cset :=                          (* [a-zA-Z_] *)
  [CRange "a" "z"; CRange "A" "Z"; CChar "_"].
Definition ident_tail : cset :=                          (* [a-zA-Z0-9_$.@*] *)
  [CRange "a" "z"; CRange "A" "Z"; CRange "0" "9"; CChar "_"; CChar "$";
   CChar "."; CChar "@"; CChar "*"].

(** [cs+], [cs*] and the lazy [cs*?]. *)
Abbreviation plus cs := (Rep cs 1 true).
Abbreviation star cs := (Rep cs 0 true).
Abbreviation lazy_star cs := (Rep cs 0 false).

(** ** The patterns of [parse_map_file] (source lines 73 to 102, 138) *)

Section Patterns.
Local Open Scope re_scope.

(** "^\s*[0-9a-fA-F]+\s+[0-9a-fA-F]+\s+([0-9a-fA-F]+)\s+\S+\s+\.bss\s*$"
    (line 73). *)
Definition bss_header_pattern : re :=
  Bol ⋅ star ws ⋅ plus hex ⋅ plus ws ⋅ plus hex ⋅ plus ws ⋅
  Grp 1 (plus hex) ⋅ plus ws ⋅ plus nws ⋅ plus ws ⋅
  Lit ".bss" ⋅ star ws ⋅ Eol.

(** "^\s*(H)\s+(H)\s+(H)\s+(H)\s*(R)$" with "[0-9a-fA-F]+" for H and
    the greedy any-character star for R (line 80). *)
Definition line_parser_pattern : re :=
  Bol ⋅ star ws ⋅ Grp 1 (plus hex) ⋅ plus ws ⋅ Grp 2 (plus hex) ⋅ plus ws ⋅
  Grp 3 (plus hex) ⋅ plus ws ⋅
  Grp 4 (plus hex) ⋅ star ws ⋅ Grp 5 (star [CAny]) ⋅ Eol.

(** "^(.*?)\s*:\s*\((.*?)\)$" (line 86). *)
Definition obj_file_and_section_content_pattern : re :=
  Bol ⋅ Grp 1 (lazy_star [CAny]) ⋅ star ws ⋅ Lit ":" ⋅ star ws ⋅ Lit "(" ⋅
  Grp 2 (lazy_star [CAny]) ⋅ Lit ")" ⋅ Eol.

(** "\.bss\.?(I)$" with "[a-zA-Z_][a-zA-Z0-9_$.@*]*" for I (line 90). *)
Definition symbol_in_section_pattern : re :=
  Lit ".bss" ⋅ Opt [CChar "."] ⋅ Grp 1 (Sym ident_head ⋅ star ident_tail) ⋅ Eol.

(** "^\s*(I)\s*$" with "[a-zA-Z_][a-zA-Z0-9_$.@*]*" for I (line 95). *)
Definition plain_symbol_pattern : re :=
  Bol ⋅ star ws ⋅ Grp 1 (Sym ident_head ⋅ star ident_tail) ⋅ star ws ⋅ Eol.

(** "^\s*H\s+H\s+(H)\s+\S+\s+\.(text|data|rodata|stack|heap|common|DEBUG|ARM.exidx)\s*$"
    with "[0-9a-fA-F]+" for H (line 99),
    compiled with [re.IGNORECASE].  The dot before the alternation is a
    literal dot; the one inside [ARM.exidx] is the any-character dot. *)
Definition other_section_header_pattern : re :=
  Bol ⋅ star ws ⋅ plus hex ⋅ plus ws ⋅ plus hex ⋅ plus ws ⋅
  Grp 1 (plus hex) ⋅ plus ws ⋅ plus nws ⋅ plus ws ⋅
  Lit "." ⋅
  Grp 2 (Lit "text" ∣ Lit "data" ∣ Lit "rodata" ∣ Lit "stack" ∣ Lit "heap" ∣
         Lit "common" ∣ Lit "DEBUG" ∣ (Lit "ARM" ⋅ Sym [CAny] ⋅ Lit "exidx")) ⋅
  star ws ⋅ Eol.

(** "^\s*H\s+H\s+\S+\s+\S+\s+(_ebss|_end|__bss_end__|COMMON)\b"
    with "[0-9a-fA-F]+" for H (line 102),
    compiled with [re.IGNORECASE]. *)
Definition ebss_pattern : re :=
  Bol ⋅ star ws ⋅ plus hex ⋅ plus ws ⋅ plus hex ⋅ plus ws ⋅
  plus nws ⋅ plus ws ⋅ plus nws ⋅ plus ws ⋅
  Grp 1 (Lit "_ebss" ∣ Lit "_end" ∣ Lit "__bss_end__" ∣ Lit "COMMON") ⋅ WordB.

(** "\.\w+\s+" (line 138) *)
Definition dotted_word_space_pattern : re := Lit "." ⋅ plus [CWord] ⋅ plus ws.

(** "\.bss" (line 138) *)
Definition dot_bss_pattern : re := Lit ".bss".

End Patterns.


(** ** Exceptions and process outcomes

    The classes are those the operations of the [try] body raise: failures
    of [open] and of reading ([OSError] and its subclasses,
    [UnicodeDecodeError]), [ValueError] from [int] and
    [ZeroDivisionError] from [/].  All of them derive from [Exception]. *)

Inductive eclass :=
| Exception
| OSError | FileNotFoundError | PermissionError | IsADirectoryError
| ValueError | UnicodeDecodeError
| ArithmeticError | ZeroDivisionError.

Record exn := Exn { exn_class : eclass; exn_str : string }.

(** The direct base class; [Exception] is the root of the model. *)
Definition base (c : eclass) : option eclass :=
  match c with
  | Exception => None
  | OSError | ValueError | ArithmeticError => Some Exception
  | FileNotFoundError | PermissionError | IsADirectoryError => Some OSError
  | UnicodeDecodeError => Some ValueError
  | ZeroDivisionError => Some ArithmeticError
  end.

Definition eclass_eqb (a b : eclass) : bool :=
  match a, b with
  | Exception, Exception | OSError, OSError
  | FileNotFoundError, FileNotFoundError | PermissionError, PermissionError
  | IsADirectoryError, IsADirectoryError | ValueError, ValueError
  | UnicodeDecodeError, UnicodeDecodeError
  | ArithmeticError, ArithmeticError
  | ZeroDivisionError, ZeroDivisionError => true
  | _, _ => false
  end.

Fixpoint issubclass_fuel (n : nat) (c d : eclass) : bool :=
  eclass_eqb c d ||
  match n, base c with
  | S n', Some b => issubclass_fuel n' b d
  | _, _ => false
  end.

(** [isinstance(e, d)]; the hierarchy is three levels deep. *)
Definition isinstance (e : exn) (d : eclass) : bool :=
  issubclass_fuel 3 (exn_class e) d.

Inductive outcome (A : Type) :=
| Returned (a : A)                              (* return a *)
| SysExit (status : Z) (stderr : list string)   (* sys.exit(status) *)
| Propagated (e : exn).                         (* exception not handled *)
Arguments Returned {A} a.
Arguments SysExit {A} status stderr.
Arguments Propagated {A} e.

(** [try: body  except c1: h1  except c2: h2 ...]: the first clause
    whose class the exception is an instance of handles it. *)
Definition try_except {A} (body : exn + A)
    (clauses : list (eclass * (exn -> outcome A))) : outcome A :=
  match body with
  | inr a => Returned a
  | inl e =>
      match List.find (fun cl => isinstance e (fst cl)) clauses with
      | Some cl => snd cl e
      | None => Propagated e
      end
  end.

(** ** The input file

    What iterating over the opened file yields: lines, until the end of
    the file or until a read fails. *)

Inductive file :=
| Eof
| Line (l : string) (f : file)
| ReadError (e : exn).

Fixpoint file_of_lines (ls : list string) : file :=
  match ls with
  | [] => Eof
  | l :: ls' => Line l (file_of_lines ls')
  end.

(** ** Symbols and the locals of [parse_map_file] *)

(** One entry of [bss_symbols]; [padding_before] is absent until the
    padding pass sets it. *)
Record symbol := Symbol {
  name : string;
  size_hex : string;
  size_dec : Z;
  vma : Z;
  object_file : string;
  padding_before : option Z
}.

Definition symbol_key : Type := string * string * Z.

Definition key_of (s : symbol) : symbol_key :=
  (name s, object_file s, size_dec s).

Record locals := Locals {
  total_bss_size : Z;
  bss_symbols : list symbol;
  in_bss_section : bool;
  current_object_file_context : string;
  added_symbols_set : gset symbol_key
}.

Definition init_locals : locals :=
  Locals 0 [] false "unknown" ∅.

(** How one iteration of the [for] loop ends. *)
Inductive step :=
| Continue (st : locals)     (* next line *)
| Break (st : locals)        (* break *)
| Raise (e : exn).

Definition object_extensions : list string :=
  [".o"; ".obj"; ".a"; ".lib"; ".elf"; ".s"].

Definition matched {A} (m : option A) : bool :=
  match m with Some _ => true | None => false end.

(** Truth value of a variable that is [None] or a [str]. *)
Definition truthy_opt (o : option string) : bool :=
  match o with Some s => Str.truthy s | None => false end.

Definition opt_eqb (o : option string) (s : string) : bool :=
  match o with Some t => String.eqb t s | None => false end.

Definition leave_bss (st : locals) : locals :=
  Locals (total_bss_size st) (bss_symbols st) false
         (current_object_file_context st) (added_symbols_set st).

Definition value_error (s : string) : exn :=
  Exn ValueError ("invalid literal for int() with base 16: '" +:+ s +:+ "'").

(** Lines 155 to 182: the object file context after the line, the symbol
    name and the object file of the symbol, from the remainder. *)
Definition classify_remainder (context remainder_str : string)
    : string * option string * option string :=
  match re_match false obj_file_and_section_content_pattern remainder_str with
  | Some obj_sec_content_match =>
      let obj_file_path_from_line :=
        Str.strip (group_of obj_sec_content_match 1) in
      let section_content := Str.strip (group_of obj_sec_content_match 2) in
      let context' :=
        if existsb (Str.endswith obj_file_path_from_line) object_extensions
        then obj_file_path_from_line else context in
      let symbol_name :=
        match re_search false symbol_in_section_pattern section_content with
        | Some sym_in_sec_match => Some (group_of sym_in_sec_match 1)
        | None => None
        end in
      (context', symbol_name, Some context')
  | None =>
      match re_match false plain_symbol_pattern remainder_str with
      | Some plain_sym_match =>
          (context, Some (group_of plain_sym_match 1), Some context)
      | None => (context, None, None)
      end
  end.

Definition with_context (st : locals) (context : string) : locals :=
  Locals (total_bss_size st) (bss_symbols st) (in_bss_section st)
         context (added_symbols_set st).

(** Lines 194 to 205: append the symbol unless its key was added before. *)
Definition add_symbol (st : locals) (context : string) (s : symbol)
    : locals :=
  if decide (key_of s ∈ added_symbols_set st) then with_context st context
  else
    Locals (total_bss_size st) (bss_symbols st ++ [s]) (in_bss_section st)
           context ({[ key_of s ]} ∪ added_symbols_set st).

(** Lines 144 to 205: a line inside the section that passed the exit
    checks. *)
Definition record_line (st : locals) (stripped_line : string) : step :=
  match re_match false line_parser_pattern stripped_line with
  | None => Continue st
  | Some line_match =>
      let size_hex_str := group_of line_match 3 in
      let remainder_str := Str.strip (group_of line_match 5) in
      match Str.int16 size_hex_str with
      | None => Continue st                       (* except ValueError *)
      | Some symbol_size_dec =>
          let '(context, symbol_name, object_file_for_current_symbol) :=
            classify_remainder (current_object_file_context st)
                               remainder_str in
          let is_linker_artifact :=
            (symbol_size_dec =? 0) &&
            (opt_eqb symbol_name "_bss" || opt_eqb symbol_name "_ebss") in
          if truthy_opt symbol_name && negb is_linker_artifact then
            match Str.int16 (group_of line_match 1) with
            | None => Raise (value_error (group_of line_match 1))
            | Some vma_addr =>
                let final_object_file :=
                  if truthy_opt object_file_for_current_symbol
                  then default "" object_file_for_current_symbol
                  else "unknown" in
                Continue
                  (add_symbol st context
                     (Symbol (default "" symbol_name) size_hex_str
                             symbol_size_dec vma_addr final_object_file None))
            end
          else Continue (with_context st context)
      end
  end.

(** The three checks of lines 126 to 141. *)
Definition exit_check_1 (stripped_line : string) : bool :=
  matched (re_match true other_section_header_pattern stripped_line).

Definition exit_check_2 (stripped_line : string) : bool :=
  matched (re_search true ebss_pattern stripped_line) ||
  Str.contains "_ebss" stripped_line.

Definition exit_check_3 (stripped_line : string) : bool :=
  matched (re_search false dotted_word_space_pattern stripped_line) &&
  negb (matched (re_search false dot_bss_pattern stripped_line)).

(** Lines 107 to 205: the body of the loop over the lines. *)
Definition loop_body (st : locals) (line : string) : step :=
  let stripped_line := Str.strip line in
  if negb (Str.truthy stripped_line) then Continue st
  else if negb (in_bss_section st) then
    match re_match false bss_header_pattern stripped_line with
    | Some m =>
        match Str.int16 (group_of m 1) with
        | Some size =>
            Continue (Locals size (bss_symbols st) true
                             (current_object_file_context st)
                             (added_symbols_set st))
        | None => Continue st                     (* except ValueError *)
        end
    | None => Continue st
    end
  else if exit_check_1 stripped_line then Break (leave_bss st)
  else if exit_check_2 stripped_line then Break (leave_bss st)
  else if exit_check_3 stripped_line then Break (leave_bss st)
  else record_line st stripped_line.

(** [for line in f: ...] *)
Fixpoint scan (f : file) (st : locals) : exn + locals :=
  match f with
  | Eof => inr st
  | ReadError e => inl e
  | Line l f' =>
      match loop_body st l with
      | Continue st' => scan f' st'
      | Break st' => inr st'
      | Raise e => inl e
      end
  end.

(** The loop over a run of lines: how it stands after the last of them. *)
Fixpoint steps (ls : list string) (st : locals) : step :=
  match ls with
  | [] => Continue st
  | l :: ls' =>
      match loop_body st l with
      | Continue st' => steps ls' st'
      | r => r
      end
  end.

(** The file that yields the lines [ls] and then goes on as [f]. *)
Fixpoint file_app (ls : list string) (f : file) : file :=
  match ls with
  | [] => f
  | l :: ls' => Line l (file_app ls' f)
  end.

(** A read fails somewhere in the file. *)
Fixpoint has_read_error (f : file) : bool :=
  match f with
  | Eof => false
  | Line _ f' => has_read_error f'
  | ReadError _ => true
  end.

(** ** Sorting and the padding pass (lines 207 to 231) *)

(** [list.sort(key=...)] is stable: an element goes before the first one
    whose key is not smaller.  A stable sort has one possible result, so
    this insertion sort returns the list Python's sort returns. *)
Fixpoint insert_by {A} (key : A -> Z) (x : A) (l : list A) : list A :=
  match l with
  | [] => [x]
  | y :: l' => if key x <=? key y then x :: l else y :: insert_by key x l'
  end.

Fixpoint sort_by {A} (key : A -> Z) (l : list A) : list A :=
  match l with
  | [] => []
  | x :: l' => insert_by key x (sort_by key l')
  end.

Definition set_padding (s : symbol) (p : Z) : symbol :=
  Symbol (name s) (size_hex s) (size_dec s) (vma s) (object_file s) (Some p).

Fixpoint padding_pass (syms : list symbol) (total_padding : Z)
    (previous_end : option Z) : list symbol * Z :=
  match syms with
  | [] => ([], total_padding)
  | symbol :: syms' =>
      let current_start := vma symbol in
      let current_size := size_dec symbol in
      let '(symbol', total_padding') :=
        match previous_end with
        | Some pe =>
            let padding := current_start - pe in
            if 0 <? padding
            then (set_padding symbol padding, total_padding + padding)
            else (set_padding symbol 0, total_padding)
        | None => (set_padding symbol 0, total_padding)
        end in
      let '(out, total) :=
        padding_pass syms' total_padding'
                     (Some (current_start + current_size)) in
      (symbol' :: out, total)
  end.

(** ** [parse_map_file] (lines 52 to 240)

    [open_ path] is what [open(path, 'r')] does in the environment. *)

Definition parse_result : Type := list symbol * Z * Z.

Section ParseMapFile.
Variable open_ : string -> exn + file.

(** The body of the [try]. *)
Definition parse_body (map_file_path : string) : exn + parse_result :=
  match open_ map_file_path with
  | inl e => inl e
  | inr f =>
      match scan f init_locals with
      | inl e => inl e
      | inr st =>
          let '(syms, total_padding) :=
            padding_pass (sort_by vma (bss_symbols st)) 0 None in
          inr (syms, total_bss_size st, total_padding)
      end
  end.

Definition not_found_message (map_file_path : string) : string :=
  "Error: Map file '" +:+ map_file_path +:+ "' not found.".

Definition unexpected_message (e : exn) : string :=
  "An unexpected error occurred while parsing the map file: " +:+ exn_str e.

Definition parse_map_file (map_file_path : string)
    : outcome parse_result :=
  try_except (parse_body map_file_path)
    [ (FileNotFoundError,
       fun _ => SysExit 1 [not_found_message map_file_path]);
      (Exception,
       fun e => SysExit 1 [unexpected_message e]) ].

End ParseMapFile.

(** An environment in which [path] holds the file [f] and no other path
    exists. *)
Definition single_file (path : string) (f : file) : string -> exn + file :=
  fun p =>
    if String.eqb p path then inr f
    else inl (Exn FileNotFoundError
                  ("[Errno 2] No such file or directory: '" +:+ p +:+ "'")).

(** Parsing a map file whose content is [f], or the lines [ls]. *)
Definition parse_file (f : file) : outcome parse_result :=
  parse_map_file (single_file "app.map" f) "app.map".

Definition parse_lines (ls : list string) : outcome parse_result :=
  parse_file (file_of_lines ls).

(** ** [print_symbols] (lines 266 to 366) *)

Module Fmt.

Fixpoint map_chars (f : ascii -> ascii) (s : string) : string :=
  match s with
  | EmptyString => EmptyString
  | String c s' => String (f c) (map_chars f s')
  end.

Fixpoint repeat_char (c : ascii) (n : nat) : string :=
  match n with
  | O => EmptyString
  | S n' => String c (repeat_char c n')
  end.

(** The text of an [int] in an f-string.  CPython refuses to format an
    integer of more than 4300 decimal digits ([ValueError]); this is its
    result up to that limit ([decimal_ok] below). *)
Definition dec (n : Z) : string :=
  DecimalString.NilZero.string_of_int (Z.to_int n).

(** The text of an [int] under the format [X]. *)
Definition hex_upper (n : Z) : string :=
  map_chars Chr.upper
    (HexadecimalString.NilZero.string_of_int (Z.to_hex_int n)).

(** Left and right alignment in a field of width [w]. *)
Definition ljust (s : string) (w : nat) : string :=
  s +:+ repeat_char " " (w - String.length s).
Definition rjust (s : string) (w : nat) : string :=
  repeat_char " " (w - String.length s) +:+ s.

End Fmt.

Record col_widths := ColWidths {
  w_name : nat;      (* "Symbol Name" *)
  w_size : nat;      (* "Size (B)" *)
  w_pct : nat;       (* "% of BSS" *)
  w_obj : nat        (* "Object File" *)
}.

(** [list.sort(key=..., reverse=True)]: descending and still stable. *)
Definition sort_by_desc {A} (key : A -> Z) (l : list A) : list A :=
  sort_by (fun x => - key x) l.

Section Reporter.
(** [percent_2f n d] is the text of [(n / d) * 100] under the format
    [.2f], for [d] other than zero; floating point is not modelled. *)
Variable percent_2f : Z -> Z -> string.

(** [(n / d) * 100] formatted; [/] raises on a zero divisor.  Python
    also raises [OverflowError] when the quotient is beyond the range of
    a float; this is its behaviour on the quotients within that range
    ([quotient_ok] below). *)
Definition percent_text (n d : Z) : exn + string :=
  if d =? 0 then inl (Exn ZeroDivisionError "division by zero")
  else inr (percent_2f n d).

Definition size_text (with_hex : bool) (n : Z) : string :=
  Fmt.dec n +:+ (if with_hex then " (0x" +:+ Fmt.hex_upper n +:+ ")" else "").

(** Lines 298 to 303: widen the columns to the data. *)
Fixpoint widths_loop (syms : list symbol) (total_bss_size : Z)
    (with_hex : bool) (w : col_widths) : exn + col_widths :=
  match syms with
  | [] => inr w
  | s :: syms' =>
      let wn := Nat.max (w_name w) (String.length (name s)) in
      let wz := Nat.max (w_size w)
                  (String.length (size_text with_hex (size_dec s))) in
      let wo := Nat.max (w_obj w) (String.length (object_file s)) in
      match percent_text (size_dec s) total_bss_size with
      | inl e => inl e
      | inr txt =>
          let wp := Nat.max (w_pct w) (String.length (txt +:+ "%")) in
          widths_loop syms' total_bss_size with_hex (ColWidths wn wz wp wo)
      end
  end.

Definition guarded_percent (n total_bss_size : Z) : string :=
  if 0 <? total_bss_size then percent_2f n total_bss_size else "0.00".

Definition table_row (w : col_widths) (a b c d : string) : string :=
  Fmt.ljust a (w_name w) +:+ " | " +:+ Fmt.rjust b (w_size w) +:+ " | " +:+
  Fmt.rjust c (w_pct w) +:+ " | " +:+ Fmt.ljust d (w_obj w).

(** Lines 319 to 345: the rows, with [nb_symbols], [symbol_size] and
    [computed_size]. *)
Fixpoint rows_loop (syms : list symbol) (total_bss_size : Z)
    (with_sdk : bool) (min_size : Z) (with_hex : bool) (w : col_widths)
    (nb_symbols symbol_size computed_size : Z)
    : list string * (Z * Z * Z) :=
  match syms with
  | [] => ([], (nb_symbols, symbol_size, computed_size))
  | symbol :: syms' =>
      let symbol_size := symbol_size + size_dec symbol in
      if size_dec symbol <? min_size then
        rows_loop syms' total_bss_size with_sdk min_size with_hex w
                  nb_symbols symbol_size computed_size
      else if negb with_sdk &&
              Str.contains "/obj/sdk/" (object_file symbol) then
        rows_loop syms' total_bss_size with_sdk min_size with_hex w
                  nb_symbols symbol_size computed_size
      else
        let percentage := guarded_percent (size_dec symbol) total_bss_size in
        let row :=
          table_row w (name symbol) (size_text with_hex (size_dec symbol))
                    (percentage +:+ "%") (object_file symbol) in
        let '(out, totals) :=
          rows_loop syms' total_bss_size with_sdk min_size with_hex w
                    (nb_symbols + 1) symbol_size
                    (computed_size + size_dec symbol) in
        (row :: out, totals)
  end.

(** What is printed, and the exception that ends the call if one is
    raised. *)
Definition print_symbols (bss_symbols : list symbol)
    (total_bss_size total_padding : Z) (with_sdk : bool) (min_size : Z)
    (with_hex : bool) : list string * option exn :=
  let bss_symbols := sort_by_desc size_dec bss_symbols in
  let banner := "--- BSS Symbols ---" in
  let h0 := "Symbol Name" in
  let h1 := "Size (B)" in
  let h2 := "% of BSS" in
  let h3 := "Object File" in
  let w0 := ColWidths (String.length h0) (String.length h1)
                      (String.length h2) (String.length h3) in
  match widths_loop bss_symbols total_bss_size with_hex w0 with
  | inl e => ([banner], Some e)
  | inr w =>
      let header_line := table_row w h0 h1 h2 h3 in
      let rule := Fmt.repeat_char "-" (String.length header_line) in
      let '(rows, (nb_symbols, symbol_size, computed_size)) :=
        rows_loop bss_symbols total_bss_size with_sdk min_size with_hex w
                  0 0 0 in
      let counts :=
        if negb (min_size =? 0) || negb with_sdk then
          [ "Total BSS Symbols found: " +:+ Fmt.dec nb_symbols +:+ " / " +:+
              Fmt.dec (Z.of_nat (length bss_symbols));
            "Total accumulated size: " +:+ Fmt.dec computed_size +:+
              " / " +:+ Fmt.dec symbol_size +:+ " Bytes" ]
        else
          [ "Total BSS Symbols found: " +:+ Fmt.dec nb_symbols;
            "Total accumulated size: " +:+ Fmt.dec symbol_size +:+
              " Bytes" ] in
      let remaining_diff := total_bss_size - (symbol_size + total_padding) in
      let unaccounted :=
        if 0 <? remaining_diff then
          [ "Additional unaccounted space: " +:+ Fmt.dec remaining_diff +:+
              " Bytes" ]
        else [] in
      let padding_size := total_bss_size - symbol_size in
      let padding_percentage := guarded_percent padding_size total_bss_size in
      ([banner; header_line; rule] ++ rows ++ [rule] ++ counts ++
       [ "Total explicit padding: " +:+ Fmt.dec total_padding +:+ " Bytes" ] ++
       unaccounted ++
       [ "Alignment padding: " +:+ size_text with_hex padding_size +:+
           " Bytes (" +:+ padding_percentage +:+ "%)";
         "Total BSS size: " +:+ Fmt.dec total_bss_size +:+ " Bytes" ],
       None)
  end.

End Reporter.

(** ** Predicates on patterns and captures *)

(** A non-empty string of hexadecimal digits. *)
Definition hexplus (s : string) : Prop :=
  s <> "" /\ Str.all Chr.is_hex s = true.

(** The groups a pattern can set. *)
Fixpoint no_grp (n : nat) (r : re) : bool :=
  match r with
  | Seq r1 r2 | Alt r1 r2 => no_grp n r1 && no_grp n r2
  | Grp m r1 => negb (Nat.eqb m n) && no_grp n r1
  | _ => true
  end.

Definition citem_eqb (a b : citem) : bool :=
  match a, b with
  | CChar x, CChar y => Ascii.eqb x y
  | CRange x1 x2, CRange y1 y2 => Ascii.eqb x1 y1 && Ascii.eqb x2 y2
  | CSpace, CSpace | CNotSpace, CNotSpace | CWord, CWord | CAny, CAny => true
  | _, _ => false
  end.

Fixpoint cset_eqb (a b : cset) : bool :=
  match a, b with
  | [], [] => true
  | x :: a', y :: b' => citem_eqb x y && cset_eqb a' b'
  | _, _ => false
  end.

(** Patterns every match of which leaves group [n] holding a capture of
    "[0-9a-fA-F]+". *)
Fixpoint captures_hexplus (n : nat) (r : re) : bool :=
  match r with
  | Seq r1 r2 =>
      captures_hexplus n r2 || (captures_hexplus n r1 && no_grp n r2)
  | Grp m (Rep cs (S _) _) => Nat.eqb m n && cset_eqb cs hex
  | _ => false
  end.


(** ** The scanner's bookkeeping *)

Definition keys (st : locals) : list symbol_key :=
  key_of <$> bss_symbols st.

(** What holds of the locals throughout the scan: the set holds the keys
    of the list, the keys are distinct, and the object file context is a
    non-empty string. *)
Definition inv (st : locals) : Prop :=
  (forall k, k ∈ added_symbols_set st <-> k ∈ keys st) /\
  NoDup (keys st) /\
  current_object_file_context st <> "".

(** One iteration leaves the list alone or appends one new symbol, whose
    object file is the context after the line. *)
Definition extends (st st' : locals) : Prop :=
  bss_symbols st' = bss_symbols st \/
  exists s, bss_symbols st' = bss_symbols st ++ [s] /\
            (key_of s ∉ keys st) /\
            object_file s = current_object_file_context st'.

(** ** The padding figures, in the words of the specification *)

(** The padding recorded on a symbol ([0] while absent). *)
Definition padding_of (s : symbol) : Z := default 0 (padding_before s).

(** The sum of all [padding_before] values. *)
Definition sum_padding (l : list symbol) : Z :=
  foldr (fun s acc => padding_of s + acc) 0 l.

(** [previous_end] of a symbol: its address plus its size. *)
Definition end_of (s : symbol) : Z := vma s + size_dec s.

(** Ascending by a key, position by position. *)
Definition ascending {A} (key : A -> Z) (l : list A) : Prop :=
  forall i j a b, (i <= j)%nat -> l !! i = Some a -> l !! j = Some b ->
                  key a <= key b.

(** ** The third exit condition, in the words of the specification

    "A line containing a dotted section tag that is not .bss": the line
    has a token of the shape "\.\w+" and no ".bss". *)

Definition dotted_word_pattern : re := Seq (Lit ".") (plus [CWord]).

Definition spec_dotted_tag_not_bss (stripped_line : string) : bool :=
  matched (re_search false dotted_word_pattern stripped_line) &&
  negb (matched (re_search false dot_bss_pattern stripped_line)).

(** The section header every scenario starts from (Scenario A). *)
Definition bss_header_line : string := "da7a0000 da7a0000 7480 8 .bss".

(** ** The rest of the program: [print_summary] and [main] *)

(** [print_summary] (lines 246 to 260): the two lines it prints. *)
Definition print_summary (total_bss_size : Z) (with_hex : bool)
    : list string :=
  [ "--- BSS Section Summary ---";
    "Total BSS Size: " +:+ size_text with_hex total_bss_size +:+ " Bytes" ].

(** The options [arg_parse] returns (lines 18 to 46): [--input], [--min],
    [--hexa] and [--sdk]. *)
Record namespace := Namespace {
  arg_input : string;
  arg_min : Z;
  arg_hexa : bool;
  arg_sdk : bool
}.

Definition no_symbols_message : string :=
  "No BSS symbols found and BSS section is empty or not properly parsed.".

Definition no_extraction_messages (total_bss_size : Z) : list string :=
  [ "BSS section has a total size of " +:+ Fmt.dec total_bss_size +:+
      " bytes, but no individual symbols were extracted.";
    "This might indicate that the symbol parsing patterns need further refinement for your specific map file format." ].

(** [main] (lines 369 to 386), given the parsed options: what it prints
    on the standard output and how it ends. *)
Definition main (open_ : string -> exn + file)
    (percent_2f : Z -> Z -> string) (args : namespace)
    : list string * outcome unit :=
  match parse_map_file open_ (arg_input args) with
  | SysExit status stderr => ([], SysExit status stderr)
  | Propagated e => ([], Propagated e)
  | Returned (bss_symbols, total_bss_size, total_padding) =>
      let report :=
        let '(out, raised) :=
          print_symbols percent_2f bss_symbols total_bss_size total_padding
                        (arg_sdk args) (arg_min args) (arg_hexa args) in
        (print_summary total_bss_size (arg_hexa args) ++ out,
         match raised with
         | Some e => Propagated e
         | None => Returned tt
         end) in
      match bss_symbols with
      | [] =>
          if total_bss_size =? 0 then ([no_symbols_message], Returned tt)
          else if 0 <? total_bss_size
          then (no_extraction_messages total_bss_size, Returned tt)
          else report
      | _ :: _ => report
      end
  end.

(** ** Vocabulary of the further properties *)

(** The identifier grammar of the two name groups:
    "[a-zA-Z_][a-zA-Z0-9_$.@*]*". *)
Definition is_ident (s : string) : bool :=
  match s with
  | EmptyString => false
  | String c w => cset_has ident_head c && Str.all (cset_has ident_tail) w
  end.

(** Patterns every match of which leaves group [n] holding an identifier. *)
Fixpoint captures_ident (n : nat) (r : re) : bool :=
  match r with
  | Seq r1 r2 =>
      captures_ident n r2 || (captures_ident n r1 && no_grp n r2)
  | Grp m (Seq (Sym h) (Rep t 0 _)) =>
      Nat.eqb m n && cset_eqb h ident_head && cset_eqb t ident_tail
  | _ => false
  end.

(** The default object file, or a path with an object file extension. *)
Definition known_object (o : string) : Prop :=
  o = "unknown" \/ existsb (Str.endswith o) object_extensions = true.

(** The test of line 185 on a recorded symbol. *)
Definition is_linker_artifact (s : symbol) : bool :=
  (size_dec s =? 0) &&
  (String.eqb (name s) "_bss" || String.eqb (name s) "_ebss").

(** What every symbol of [bss_symbols] satisfies during the scan. *)
Definition scanned_ok (s : symbol) : Prop :=
  is_ident (name s) = true /\
  hexplus (size_hex s) /\ Str.int16 (size_hex s) = Some (size_dec s) /\
  0 <= size_dec s /\ 0 <= vma s /\
  known_object (object_file s) /\
  is_linker_artifact s = false /\
  padding_before s = None.

Definition locals_ok (st : locals) : Prop :=
  0 <= total_bss_size st /\
  known_object (current_object_file_context st) /\
  Forall scanned_ok (bss_symbols st).

(** A line is the section header, or blank, once stripped. *)
Definition is_header (l : string) : bool :=
  matched (re_match false bss_header_pattern (Str.strip l)).

Definition is_blank (l : string) : bool := negb (Str.truthy (Str.strip l)).

(** A symbol without its padding, as the scan recorded it. *)
Definition unpad (s : symbol) : symbol :=
  Symbol (name s) (size_hex s) (size_dec s) (vma s) (object_file s) None.

Definition sum_sizes (l : list symbol) : Z :=
  foldr (fun s acc => size_dec s + acc) 0 l.

(** The symbols [print_symbols] lists: not below the threshold, and not
    of the SDK unless asked for (lines 321 to 327). *)
Definition shown (with_sdk : bool) (min_size : Z) (s : symbol) : bool :=
  negb (size_dec s <? min_size) &&
  negb (negb with_sdk && Str.contains "/obj/sdk/" (object_file s)).

(** The row of a symbol (lines 330 to 341). *)
Definition row_of (percent_2f : Z -> Z -> string) (total_bss_size : Z)
    (with_hex : bool) (w : col_widths) (s : symbol) : string :=
  table_row w (name s) (size_text with_hex (size_dec s))
            (guarded_percent percent_2f (size_dec s) total_bss_size +:+ "%")
            (object_file s).

(** The width of a table line: the four columns and their separators. *)
Definition row_width (w : col_widths) : nat :=
  (w_name w + 3 + w_size w + 3 + w_pct w + 3 + w_obj w)%nat.

(** The fields of a symbol fit the columns. *)
Definition fits (percent_2f : Z -> Z -> string) (total_bss_size : Z)
    (with_hex : bool) (w : col_widths) (s : symbol) : Prop :=
  (String.length (name s) <= w_name w)%nat /\
  (String.length (size_text with_hex (size_dec s)) <= w_size w)%nat /\
  (String.length (percent_2f (size_dec s) total_bss_size +:+ "%")
     <= w_pct w)%nat /\
  (String.length (object_file s) <= w_obj w)%nat.

(** No column is narrower in [w'] than in [w]. *)
Definition widths_le (w w' : col_widths) : Prop :=
  (w_name w <= w_name w')%nat /\ (w_size w <= w_size w')%nat /\
  (w_pct w <= w_pct w')%nat /\ (w_obj w <= w_obj w')%nat.

(** The column widths before the data is looked at: those of the four
    headers (lines 290 to 295). *)
Definition header_widths : col_widths := ColWidths 11 8 8 11.

(** The lines [print_symbols] ends with (lines 347 to 366), from the
    counters of the row loop. *)
Definition totals_lines (n_all : nat) (total_bss_size total_padding : Z)
    (with_sdk : bool) (min_size : Z) (with_hex : bool)
    (percent_2f : Z -> Z -> string)
    (nb_symbols symbol_size computed_size : Z) : list string :=
  (if negb (min_size =? 0) || negb with_sdk then
     [ "Total BSS Symbols found: " +:+ Fmt.dec nb_symbols +:+ " / " +:+
         Fmt.dec (Z.of_nat n_all);
       "Total accumulated size: " +:+ Fmt.dec computed_size +:+
         " / " +:+ Fmt.dec symbol_size +:+ " Bytes" ]
   else
     [ "Total BSS Symbols found: " +:+ Fmt.dec nb_symbols;
       "Total accumulated size: " +:+ Fmt.dec symbol_size +:+ " Bytes" ]) ++
  [ "Total explicit padding: " +:+ Fmt.dec total_padding +:+ " Bytes" ] ++
  (if 0 <? total_bss_size - (symbol_size + total_padding) then
     [ "Additional unaccounted space: " +:+
         Fmt.dec (total_bss_size - (symbol_size + total_padding)) +:+
         " Bytes" ]
   else []) ++
  [ "Alignment padding: " +:+
      size_text with_hex (total_bss_size - symbol_size) +:+ " Bytes (" +:+
      guarded_percent percent_2f (total_bss_size - symbol_size)
                      total_bss_size +:+ "%)";
    "Total BSS size: " +:+ Fmt.dec total_bss_size +:+ " Bytes" ].

(** The header line of the table for given column widths. *)
Definition header_line_of (w : col_widths) : string :=
  table_row w "Symbol Name" "Size (B)" "% of BSS" "Object File".

(** The lines that matter to the scan: the non-blank ones, stripped. *)
Definition clean_lines (ls : list string) : list string :=
  List.map Str.strip (List.filter (fun l => negb (is_blank l)) ls).

(** A formatter to run [print_symbols] and [main] with: the percentage
    cut to two decimals in exact arithmetic, where Python rounds the
    float.  It stands in for the float formatting only where an example
    needs a concrete one; no example quotes a percentage. *)
Definition example_percent_2f (n d : Z) : string :=
  let hundredths := 10000 * n / d in
  Fmt.dec (hundredths / 100) +:+ "." +:+
  Fmt.dec (hundredths mod 100 / 10) +:+ Fmt.dec (hundredths mod 10).

(** ** The exit conditions, in the words of the specification

    "A header line for a different well-known section (.text, .data,
    .rodata, .stack, .heap, .common, DEBUG, .ARM.exidx, case-insensitive)
    in the same header shape as above"; "a line naming a BSS-end marker
    symbol ... or the literal substring _ebss"; "a line containing a
    dotted section tag that is not .bss". *)




(** ** The limits of integer formatting and of division

    CPython formats an integer in decimal up to 4300 digits, and [n / d]
    on integers gives a float as long as the quotient, rounded, is below
    2^1024.  Beyond these limits the reporter raises [ValueError] or
    [OverflowError]; the model of the reporter has neither, and the
    properties of the reporter are stated within the limits. *)

Definition decimal_ok (n : Z) : Prop := Z.abs n < 10 ^ 4300.

Definition quotient_ok (n d : Z) : Prop :=
  d <> 0 /\ Z.abs n < (2 ^ 1024 - 2 ^ 970) * Z.abs d.

Definition modest (n : Z) : Prop := Z.abs n < 2 ^ 1000.

Definition sum_abs_sizes (l : list symbol) : Z :=
  foldr (fun s acc => Z.abs (size_dec s) + acc) 0 l.

(** The arguments of [print_symbols] are within the limits: the total,
    the padding, the sizes taken together and the number of symbols are
    below 2^1000, so that every integer the function formats is
    [decimal_ok] and every quotient it takes is [quotient_ok] (lemma
    [within_limits_cover]). *)
Definition within_limits (syms : list symbol) (total_bss_size
    total_padding : Z) : Prop :=
  modest total_bss_size /\ modest total_padding /\
  modest (sum_abs_sizes syms) /\ modest (Z.of_nat (length syms)).
(** * Properties of the matcher *)

Lemma int16_acc_total s : forall acc,
  Str.all Chr.is_hex s = true -> 0 <= acc ->
  exists v, Str.int16_acc acc s = Some v /\ 0 <= v.
Proof.
  induction s as [|c s IH]; intros acc Hall Hacc; simpl in *.
  - eauto.
  - apply andb_true_iff in Hall as [Hc Hs].
    assert (exists d, Chr.hex_val c = Some d /\ 0 <= d) as (d & -> & Hd).
    { unfold Chr.hex_val, Chr.is_hex, Chr.is_digit, Chr.between in *.
      destruct c as [[] [] [] [] [] [] [] []]; vm_compute in Hc;
        try discriminate; vm_compute; eexists; split; try reflexivity; discriminate. }
    apply IH; [assumption | lia].
Qed.

(** [int(s, 16)] does not raise on a capture of hexadecimal digits. *)
Lemma int16_hexplus s : hexplus s -> exists v, Str.int16 s = Some v /\ 0 <= v.
Proof.
  intros [Hne Hall]. destruct s as [|c s]; [congruence|].
  unfold Str.int16. apply int16_acc_total; [assumption | lia].
Qed.

Lemma take_app_exact w s :
  Str.take (String.length (w +:+ s) - String.length s)%nat (w +:+ s) = w.
Proof.
  assert (Hlen : forall a b, String.length (a +:+ b)
                             = (String.length a + String.length b)%nat).
  { induction a; intros; simpl; [reflexivity | now rewrite IHa]. }
  rewrite Hlen.
  replace (String.length w + String.length s - String.length s)%nat
    with (String.length w) by lia.
  induction w as [|c w IH]; simpl.
  - destruct s; reflexivity.
  - now rewrite IH.
Qed.

(** A position listed by [spans] lies after a run of the class, and the
    captures are untouched. *)
Lemma spans_spec ic cs s : forall lo b cp q,
  In q (List.skipn lo (spans ic cs b s cp)) ->
  exists w, s = w +:+ rest q /\ Str.all (in_cset ic cs) w = true /\
            caps q = cp /\ (lo <= String.length w)%nat.
Proof.
  induction s as [|c s IH]; intros lo b cp q Hin.
  - destruct lo as [|lo]; simpl in Hin.
    + destruct Hin as [<-|[]]. exists "". simpl. auto with arith.
    + destruct lo; simpl in Hin; destruct Hin.
  - destruct lo as [|lo].
    + simpl in Hin. destruct Hin as [<-|Hin].
      * exists "". simpl. auto with arith.
      * destruct (in_cset ic cs c) eqn:Hc; [|destruct Hin].
        destruct (IH 0%nat (Some c) cp q Hin) as (w & Hw & Hall & Hcp & _).
        exists (String c w).
        split; [change (String c s = String c (w +:+ rest q)); now f_equal|].
        split; [simpl; now rewrite Hc, Hall|].
        split; [assumption | simpl; lia].
    + simpl in Hin.
      destruct (in_cset ic cs c) eqn:Hc;
        [|destruct lo; simpl in Hin; destruct Hin].
      destruct (IH lo (Some c) cp q Hin) as (w & Hw & Hall & Hcp & Hlo).
      exists (String c w).
      split; [change (String c s = String c (w +:+ rest q)); now f_equal|].
      split; [simpl; now rewrite Hc, Hall|].
      split; [assumption | simpl; lia].
Qed.

Lemma lit_caps ic l : forall p q, In q (lit ic l p) -> caps q = caps p.
Proof.
  induction l as [|a l IH]; intros p q Hin; simpl in Hin.
  - destruct Hin as [<-|[]]. reflexivity.
  - destruct (rest p) as [|c s']; [destruct Hin|].
    destruct (in_cset ic [CChar a] c); [|destruct Hin].
    apply IH in Hin. exact Hin.
Qed.

(** A pattern keeps the groups it does not contain. *)
Lemma matches_frame ic n r : forall p q,
  no_grp n r = true -> In q (matches ic r p) ->
  group n (caps q) = group n (caps p).
Proof.
  induction r as [| | | |cs|cs lo g|cs|l|r1 IH1 r2 IH2|r1 IH1 r2 IH2|m r1 IH1];
    intros p q Hno Hin; simpl in Hin, Hno.
  - destruct Hin as [<-|[]]; reflexivity.
  - destruct (before p); [destruct Hin|]. destruct Hin as [<-|[]]; reflexivity.
  - destruct (rest p) as [|c [|]]; try (destruct Hin; fail).
    + destruct Hin as [<-|[]]; reflexivity.
    + destruct (Ascii.eqb c "010"); [|destruct Hin].
      destruct Hin as [<-|[]]; reflexivity.
  - destruct (xorb _ _); [|destruct Hin].
    destruct Hin as [<-|[]]; reflexivity.
  - destruct (rest p) as [|c s']; [destruct Hin|].
    destruct (in_cset ic cs c); [|destruct Hin].
    destruct Hin as [<-|[]]; reflexivity.
  - assert (In q (List.skipn lo
                    (spans ic cs (before p) (rest p) (caps p)))) as Hq.
    { destruct g; [apply in_rev in Hin|]; exact Hin. }
    apply spans_spec in Hq as (w & _ & _ & -> & _). reflexivity.
  - destruct (rest p) as [|c s']; [destruct Hin as [<-|[]]; reflexivity|].
    destruct (in_cset ic cs c).
    + destruct Hin as [<-|[<-|[]]]; reflexivity.
    + destruct Hin as [<-|[]]; reflexivity.
  - apply lit_caps in Hin. now rewrite Hin.
  - apply andb_true_iff in Hno as [H1 H2].
    apply in_flat_map in Hin as (mid & Hmid & Hq).
    rewrite (IH2 _ _ H2 Hq). apply (IH1 _ _ H1 Hmid).
  - apply andb_true_iff in Hno as [H1 H2].
    apply in_app_or in Hin as [Hin|Hin]; [apply IH1|apply IH2]; assumption.
  - apply andb_true_iff in Hno as [Hm H1].
    apply in_map_iff in Hin as (q' & <- & Hq'). simpl.
    apply negb_true_iff in Hm. rewrite Hm. apply (IH1 _ _ H1 Hq').
Qed.

Lemma cset_eqb_eq a : forall b, cset_eqb a b = true -> a = b.
Proof.
  induction a as [|x a IH]; intros [|y b] H; simpl in H; try discriminate.
  - reflexivity.
  - apply andb_true_iff in H as [Hxy Hab]. f_equal; [|now apply IH].
    destruct x, y; simpl in Hxy; try discriminate; try reflexivity.
    + apply Ascii.eqb_eq in Hxy. now subst.
    + apply andb_true_iff in Hxy as [H1 H2].
      apply Ascii.eqb_eq in H1, H2. now subst.
Qed.

Lemma in_hex_is_hex c : in_cset false hex c = Chr.is_hex c.
Proof.
  unfold in_cset, cset_has, hex, Chr.is_hex, Chr.is_digit. simpl.
  now rewrite !orb_false_r, orb_assoc.
Qed.

Lemma all_ext (f g : ascii -> bool) s :
  (forall c, f c = g c) -> Str.all f s = Str.all g s.
Proof. intros H. induction s; simpl; [reflexivity | now rewrite H, IHs]. Qed.

Lemma matches_hexplus n r : forall p q,
  captures_hexplus n r = true -> In q (matches false r p) ->
  exists w, group n (caps q) = Some w /\ hexplus w.
Proof.
  induction r as [| | | |cs|cs lo g|cs|l|r1 IH1 r2 IH2|r1 IH1 r2 IH2|m r1 IH1];
    intros p q Hc Hin; simpl in Hc; try discriminate.
  - simpl in Hin. apply in_flat_map in Hin as (mid & Hmid & Hq).
    apply orb_true_iff in Hc as [Hc|Hc].
    + eapply IH2; eassumption.
    + apply andb_true_iff in Hc as [Hc Hno].
      rewrite (matches_frame _ _ _ _ _ Hno Hq). eapply IH1; eassumption.
  - destruct r1 as [| | | |?|cs lo g|?|?|? ?|? ?|? ?]; try discriminate.
    destruct lo as [|lo]; [discriminate|].
    apply andb_true_iff in Hc as [Hm Hcs].
    apply Nat.eqb_eq in Hm. subst m. apply cset_eqb_eq in Hcs. subst cs.
    simpl in Hin. apply in_map_iff in Hin as (q' & <- & Hq').
    assert (In q' (List.skipn (S lo)
                     (spans false hex (before p) (rest p) (caps p)))) as Hs.
    { destruct g; [apply in_rev in Hq'|]; exact Hq'. }
    apply spans_spec in Hs as (w & Hw & Hall & _ & Hlen).
    exists w. simpl. rewrite Nat.eqb_refl. unfold consumed.
    rewrite Hw, take_app_exact. split; [reflexivity|]. split.
    + destruct w; [simpl in Hlen; lia | discriminate].
    + rewrite <- Hall. apply all_ext. intros c. symmetry. apply in_hex_is_hex.
Qed.

Lemma re_match_in ic r s m :
  re_match ic r s = Some m ->
  exists q, In q (matches ic r (MkPos None s [])) /\ caps q = m.
Proof.
  unfold re_match. destruct (matches _ _ _) as [|q l]; [discriminate|].
  intros [= <-]. exists q. split; [left|]; reflexivity.
Qed.

Lemma group_of_hexplus r n s m :
  captures_hexplus n r = true -> re_match false r s = Some m ->
  hexplus (group_of m n).
Proof.
  intros Hc Hm. apply re_match_in in Hm as (q & Hq & <-).
  destruct (matches_hexplus _ _ _ _ Hc Hq) as (w & Hw & Hhex).
  unfold group_of. now rewrite Hw.
Qed.

(** The size group of a matched section header decodes (line 118). *)
Lemma bss_header_size_decodes s m :
  re_match false bss_header_pattern s = Some m ->
  exists v, Str.int16 (group_of m 1) = Some v /\ 0 <= v.
Proof.
  intros H. apply int16_hexplus.
  exact (group_of_hexplus bss_header_pattern 1 _ _ eq_refl H).
Qed.

(** The size and address groups of a matched record decode
    (lines 150 and 189). *)
Lemma line_parser_size_decodes s m :
  re_match false line_parser_pattern s = Some m ->
  exists v, Str.int16 (group_of m 3) = Some v /\ 0 <= v.
Proof.
  intros H. apply int16_hexplus.
  exact (group_of_hexplus line_parser_pattern 3 _ _ eq_refl H).
Qed.

Lemma line_parser_vma_decodes s m :
  re_match false line_parser_pattern s = Some m ->
  exists v, Str.int16 (group_of m 1) = Some v /\ 0 <= v.
Proof.
  intros H. apply int16_hexplus.
  exact (group_of_hexplus line_parser_pattern 1 _ _ eq_refl H).
Qed.

(** * Properties of the scan *)

Lemma endswith_extension_nonempty p :
  existsb (Str.endswith p) object_extensions = true -> p <> "".
Proof. intros H ->. vm_compute in H. discriminate. Qed.

(** The remainder of a record: what becomes of the context, and where the
    object file of the symbol comes from. *)
Lemma classify_spec context rem context' nm obj :
  classify_remainder context rem = (context', nm, obj) ->
  (obj = Some context' \/ (obj = None /\ nm = None)) /\
  (context <> "" -> context' <> "") /\
  (context' <> context ->
     exists m,
       re_match false obj_file_and_section_content_pattern rem = Some m /\
               context' = Str.strip (group_of m 1) /\
               existsb (Str.endswith context') object_extensions = true) /\
  (re_match false obj_file_and_section_content_pattern rem = None ->
     context' = context).
Proof.
  unfold classify_remainder.
  destruct (re_match false obj_file_and_section_content_pattern rem)
    as [m|] eqn:Hm.
  - destruct (existsb _ object_extensions) eqn:Hext; intros [= <- <- <-].
    + repeat split; auto.
      * intros _. now apply endswith_extension_nonempty.
      * intros _. exists m. auto.
      * discriminate.
    + repeat split; auto; congruence.
  - destruct (re_match false plain_symbol_pattern rem);
      intros [= <- <- <-]; repeat split; auto; congruence.
Qed.

Lemma inv_init : inv init_locals.
Proof.
  unfold inv, keys. simpl. split; [|split].
  - intros k. rewrite elem_of_nil. set_solver.
  - constructor.
  - discriminate.
Qed.

Lemma inv_with_context st c : inv st -> c <> "" -> inv (with_context st c).
Proof. intros (H1 & H2 & _) Hc. repeat split; try apply H1; auto. Qed.

Lemma add_symbol_spec st c s :
  inv st -> c <> "" -> object_file s = c ->
  inv (add_symbol st c s) /\ extends st (add_symbol st c s) /\
  current_object_file_context (add_symbol st c s) = c /\
  total_bss_size (add_symbol st c s) = total_bss_size st /\
  in_bss_section (add_symbol st c s) = in_bss_section st.
Proof.
  intros (Hset & Hnd & Hctx) Hc Hobj. unfold add_symbol.
  destruct (decide (key_of s ∈ added_symbols_set st)) as [Hin|Hnin].
  - repeat split; auto; try apply Hset. now left.
  - assert (key_of s ∉ keys st) as Hk by (now rewrite <- Hset).
    repeat split; simpl; auto.
    + unfold keys. simpl. rewrite fmap_app. simpl.
      rewrite elem_of_union, elem_of_singleton, elem_of_app,
        list_elem_of_singleton.
      rewrite Hset. unfold keys. tauto.
    + unfold keys. simpl. rewrite fmap_app. simpl.
      rewrite elem_of_union, elem_of_singleton, elem_of_app,
        list_elem_of_singleton.
      rewrite Hset. unfold keys. tauto.
    + unfold keys. simpl. rewrite fmap_app. apply NoDup_app. repeat split.
      * exact Hnd.
      * intros k Hk1 Hk2. apply list_elem_of_singleton in Hk2. now subst.
      * apply NoDup_singleton.
    + right. exists s. auto.
Qed.

Lemma extends_refl st st' :
  bss_symbols st' = bss_symbols st -> extends st st'.
Proof. now left. Qed.

(** A record line never raises: it leaves the list alone or appends one
    symbol (lines 144 to 205). *)
Lemma record_line_ok st s :
  inv st ->
  exists st', record_line st s = Continue st' /\ inv st' /\ extends st st' /\
              total_bss_size st' = total_bss_size st /\
              in_bss_section st' = in_bss_section st.
Proof.
  intros Hinv. unfold record_line.
  destruct (re_match false line_parser_pattern s) as [lm|] eqn:Hlm.
  2:{ exists st. repeat split; auto; try apply Hinv. now left. }
  destruct (line_parser_size_decodes _ _ Hlm) as (sz & -> & _).
  destruct (classify_remainder _ _) as [[context nm] obj] eqn:Hcl.
  destruct (classify_spec _ _ _ _ _ Hcl) as (Hobj & Hne & _).
  assert (context <> "") as Hc by (apply Hne, Hinv).
  destruct (truthy_opt nm && _) eqn:Hadd.
  - destruct (line_parser_vma_decodes _ _ Hlm) as (v & -> & _).
    apply andb_true_iff in Hadd as [Hnm _].
    destruct Hobj as [->|[_ ->]]; [|discriminate].
    assert (truthy_opt (Some context) = true) as ->.
    { destruct context; [congruence | reflexivity]. }
    eexists. split; [reflexivity|].
    destruct (add_symbol_spec st context
      (Symbol (default "" nm) (group_of lm 3) sz v context None) Hinv Hc eq_refl)
      as (H1 & H2 & _ & H4 & H5).
    auto.
  - eexists. split; [reflexivity|].
    split; [now apply inv_with_context|].
    repeat split. now left.
Qed.

Lemma inv_same st st' :
  inv st -> bss_symbols st' = bss_symbols st ->
  added_symbols_set st' = added_symbols_set st ->
  current_object_file_context st' = current_object_file_context st ->
  inv st'.
Proof.
  unfold inv, keys. intros H H1 H2 H3. now rewrite H1, H2, H3.
Qed.

(** One iteration of the loop never raises, and keeps the bookkeeping. *)
Lemma loop_body_ok st l :
  inv st ->
  exists st', (loop_body st l = Continue st' \/ loop_body st l = Break st') /\
              inv st' /\ extends st st'.
Proof.
  intros Hinv. unfold loop_body.
  destruct (negb (Str.truthy (Str.strip l))).
  { exists st. repeat split; auto; try apply Hinv. now left. }
  destruct (negb (in_bss_section st)).
  { destruct (re_match false bss_header_pattern (Str.strip l)) as [m|] eqn:Hm.
    - destruct (bss_header_size_decodes _ _ Hm) as (v & -> & _).
      eexists. split; [left; reflexivity|].
      split; [now apply (inv_same st)|now left].
    - exists st. repeat split; auto; try apply Hinv. now left. }
  assert (inv (leave_bss st) /\ extends st (leave_bss st)) as [Hl1 Hl2].
  { split; [now apply (inv_same st)|now left]. }
  destruct (exit_check_1 _); [exists (leave_bss st); auto|].
  destruct (exit_check_2 _); [exists (leave_bss st); auto|].
  destruct (exit_check_3 _); [exists (leave_bss st); auto|].
  destruct (record_line_ok st (Str.strip l) Hinv) as (st' & -> & H1 & H2 & _).
  exists st'. auto.
Qed.

Lemma extends_prefix st st' :
  extends st st' -> bss_symbols st `prefix_of` bss_symbols st'.
Proof.
  intros [->|(s & -> & _)]; [reflexivity|]. now apply prefix_app_r.
Qed.

(** A run of lines never raises; the symbols present before it keep
    their places. *)
Lemma steps_ok ls : forall st,
  inv st ->
  exists st', (steps ls st = Continue st' \/ steps ls st = Break st') /\
              inv st' /\ bss_symbols st `prefix_of` bss_symbols st'.
Proof.
  induction ls as [|l ls IH]; intros st Hinv; simpl.
  - exists st. repeat split; auto; apply Hinv.
  - destruct (loop_body_ok st l Hinv) as (st1 & [->| ->] & Hinv1 & Hext).
    + destruct (IH st1 Hinv1) as (st2 & Hs & Hinv2 & Hpre).
      exists st2. repeat split; auto; try apply Hinv2.
      etrans; [apply extends_prefix|]; eassumption.
    + exists st1. repeat split; auto; try apply Hinv1.
      now apply extends_prefix.
Qed.

Lemma scan_file_app ls : forall f st,
  scan (file_app ls f) st =
  match steps ls st with
  | Continue st' => scan f st'
  | Break st' => inr st'
  | Raise e => inl e
  end.
Proof.
  induction ls as [|l ls IH]; intros f st; simpl; [reflexivity|].
  destruct (loop_body st l); auto.
Qed.

(** The scan of a file ends with the locals, unless a read fails. *)
Lemma scan_ok f : forall st,
  inv st ->
  (exists st', scan f st = inr st' /\ inv st' /\
               bss_symbols st `prefix_of` bss_symbols st') \/
  (exists e, scan f st = inl e /\ has_read_error f = true).
Proof.
  induction f as [|l f IH|e]; intros st Hinv; simpl.
  - left. exists st. repeat split; auto; apply Hinv.
  - destruct (loop_body_ok st l Hinv) as (st1 & [->| ->] & Hinv1 & Hext).
    + destruct (IH st1 Hinv1) as [(st2 & -> & Hinv2 & Hpre)|(e & -> & He)].
      * left. exists st2. repeat split; auto; try apply Hinv2.
        etrans; [apply extends_prefix|]; eassumption.
      * right. eauto.
    + left. exists st1. repeat split; auto; try apply Hinv1.
      now apply extends_prefix.
  - right. eauto.
Qed.

(** * Sorting and the padding pass *)

Lemma insert_by_perm {A} (key : A -> Z) x l : insert_by key x l ≡ₚ x :: l.
Proof.
  induction l as [|y l IH]; simpl; [reflexivity|].
  destruct (key x <=? key y); [reflexivity|].
  rewrite IH. apply Permutation_swap.
Qed.

Lemma sort_by_perm {A} (key : A -> Z) l : sort_by key l ≡ₚ l.
Proof.
  induction l as [|x l IH]; simpl; [reflexivity|].
  now rewrite insert_by_perm, IH.
Qed.

Lemma insert_by_sorted {A} (key : A -> Z) x l :
  StronglySorted (fun a b => key a <= key b) l ->
  StronglySorted (fun a b => key a <= key b) (insert_by key x l).
Proof.
  induction 1 as [|y l Hs IH Hall]; simpl.
  - repeat constructor.
  - destruct (key x <=? key y) eqn:Hxy.
    + apply Z.leb_le in Hxy. constructor; [now constructor|].
      constructor; [assumption|].
      eapply Forall_impl; [exact Hall|]. simpl. intros; lia.
    + apply Z.leb_gt in Hxy. constructor; [assumption|].
      rewrite insert_by_perm. constructor; [lia | assumption].
Qed.

Lemma sort_by_sorted {A} (key : A -> Z) l :
  StronglySorted (fun a b => key a <= key b) (sort_by key l).
Proof.
  induction l; simpl; [constructor | now apply insert_by_sorted].
Qed.

Lemma strongly_sorted_ascending {A} (key : A -> Z) l :
  StronglySorted (fun a b => key a <= key b) l -> ascending key l.
Proof.
  induction 1 as [|x l Hs IH Hall]; intros i j a b Hij Hi Hj.
  - now rewrite lookup_nil in Hi.
  - destruct i as [|i], j as [|j]; simpl in *; try lia.
    + injection Hi as <-. injection Hj as <-. lia.
    + injection Hi as <-. rewrite Forall_forall in Hall.
      apply Hall. eapply list_elem_of_lookup_2. eassumption.
    + eapply (IH i j); eauto with lia.
Qed.

(** The padding pass sets [padding_before] and nothing else. *)
Lemma padding_pass_fields syms : forall tp pe out total,
  padding_pass syms tp pe = (out, total) ->
  vma <$> out = vma <$> syms /\ size_dec <$> out = size_dec <$> syms /\
  key_of <$> out = key_of <$> syms.
Proof.
  induction syms as [|s syms IH]; intros tp pe out total H; simpl in H.
  - injection H as <- <-. auto.
  - destruct (match pe with Some _ => _ | None => _ end) as [s' tp'] eqn:Hs.
    destruct (padding_pass syms tp' _) as [out' total'] eqn:Hrec.
    injection H as <- <-.
    destruct (IH _ _ _ _ Hrec) as (H1 & H2 & H3).
    assert (vma s' = vma s /\ size_dec s' = size_dec s /\ key_of s' = key_of s)
      as (E1 & E2 & E3).
    { destruct pe as [e|]; [destruct (0 <? vma s - e)|];
        injection Hs as <- <-; auto. }
    rewrite !fmap_cons. now rewrite H1, H2, H3, E1, E2, E3.
Qed.

(** The padding each symbol gets, and the total. *)
Lemma padding_pass_spec syms : forall tp pe out total,
  padding_pass syms tp pe = (out, total) ->
  (forall a, out !! 0%nat = Some a ->
     padding_before a =
     Some (match pe with Some e => Z.max 0 (vma a - e) | None => 0 end)) /\
  (forall i a b, out !! i = Some a -> out !! S i = Some b ->
     padding_before b = Some (Z.max 0 (vma b - end_of a))) /\
  total = tp + sum_padding out.
Proof.
  induction syms as [|s syms IH]; intros tp pe out total H; simpl in H.
  - injection H as <- <-. repeat split; try (intros; discriminate).
    simpl. lia.
  - destruct (match pe with Some _ => _ | None => _ end) as [s' tp'] eqn:Hs.
    destruct (padding_pass syms tp' _) as [out' total'] eqn:Hrec.
    injection H as <- <-.
    destruct (IH _ _ _ _ Hrec) as (H0 & Hnext & Htot).
    assert (vma s' = vma s /\ size_dec s' = size_dec s /\
            padding_before s' =
              Some (match pe with Some e => Z.max 0 (vma s - e) | None => 0 end)
            /\ tp' = tp + padding_of s') as (E1 & E2 & E3 & E4).
    { destruct pe as [e|]; [destruct (0 <? vma s - e) eqn:Hp|];
        injection Hs as <- <-; unfold padding_of; simpl;
        repeat split; try f_equal; lia. }
    split; [|split].
    + intros a [= <-]. now rewrite E1.
    + intros [|i] a b Ha Hb; simpl in Ha, Hb.
      * injection Ha as <-. rewrite (H0 _ Hb). unfold end_of.
        now rewrite E1, E2.
      * eapply Hnext; eassumption.
    + simpl. lia.
Qed.

(** * [parse_map_file] as a whole *)

Lemma isinstance_exception e : isinstance e Exception = true.
Proof. destruct e as [[] msg]; reflexivity. Qed.

Lemma isinstance_not_found e :
  isinstance e FileNotFoundError = eclass_eqb (exn_class e) FileNotFoundError.
Proof. destruct e as [[] msg]; reflexivity. Qed.

(** What the two [except] clauses make of an exception of the body. *)
Lemma parse_map_file_raised open_ path e :
  parse_body open_ path = inl e ->
  parse_map_file open_ path =
  SysExit 1 [if eclass_eqb (exn_class e) FileNotFoundError
             then not_found_message path else unexpected_message e].
Proof.
  intros H. unfold parse_map_file, try_except. rewrite H. simpl.
  rewrite isinstance_not_found, isinstance_exception.
  destruct (eclass_eqb _ _); reflexivity.
Qed.

Lemma parse_map_file_returned open_ path r :
  parse_body open_ path = inr r -> parse_map_file open_ path = Returned r.
Proof. intros H. unfold parse_map_file, try_except. now rewrite H. Qed.

(** The body of the [try] either raises what [open] or a read raised, or
    yields the sorted, padded list with the two totals. *)
Lemma parse_body_cases open_ path :
  (exists e, open_ path = inl e /\ parse_body open_ path = inl e) \/
  (exists f e, open_ path = inr f /\ has_read_error f = true /\
               parse_body open_ path = inl e) \/
  (exists f st syms pad,
      open_ path = inr f /\ scan f init_locals = inr st /\ inv st /\
      padding_pass (sort_by vma (bss_symbols st)) 0 None = (syms, pad) /\
      parse_body open_ path = inr (syms, total_bss_size st, pad)).
Proof.
  unfold parse_body. destruct (open_ path) as [e|f]; [left; eauto|right].
  destruct (scan_ok f init_locals inv_init)
    as [(st & Hs & Hinv & _)|(e & Hs & He)]; rewrite Hs.
  - right. destruct (padding_pass _ 0 None) as [syms pad] eqn:Hp.
    exists f, st, syms, pad. auto.
  - left. eauto.
Qed.

Lemma parse_map_file_result open_ path syms total pad :
  parse_map_file open_ path = Returned (syms, total, pad) ->
  exists f st,
    open_ path = inr f /\ scan f init_locals = inr st /\ inv st /\
    padding_pass (sort_by vma (bss_symbols st)) 0 None = (syms, pad) /\
    total = total_bss_size st.
Proof.
  intros H.
  destruct (parse_body_cases open_ path)
    as [(e & _ & Hb)
       |[(f & e & _ & _ & Hb)
        |(f & st & s & p & Ho & Hs & Hi & Hp & Hb)]].
  - rewrite (parse_map_file_raised _ _ _ Hb) in H. discriminate.
  - rewrite (parse_map_file_raised _ _ _ Hb) in H. discriminate.
  - rewrite (parse_map_file_returned _ _ _ Hb) in H.
    injection H as <- <- <-. exists f, st. auto.
Qed.

Lemma steps_continue_inv ls st :
  steps ls init_locals = Continue st -> inv st.
Proof.
  intros H.
  destruct (steps_ok ls init_locals inv_init) as (st' & [Hs|Hs] & Hi & _);
    rewrite Hs in H; [now injection H as <- | discriminate].
Qed.

Lemma file_of_lines_app ls : file_of_lines ls = file_app ls Eof.
Proof. induction ls; simpl; [reflexivity | now f_equal]. Qed.

Lemma parse_file_scan f st :
  scan f init_locals = inr st ->
  parse_file f =
  Returned (let '(syms, pad) :=
              padding_pass (sort_by vma (bss_symbols st)) 0 None in
            (syms, total_bss_size st, pad)).
Proof.
  intros H. apply parse_map_file_returned. unfold parse_body. simpl.
  rewrite H. now destruct (padding_pass _ 0 None).
Qed.

(** When one of the exit checks fires inside the section the loop breaks. *)
Lemma exit_check_breaks st l :
  in_bss_section st = true ->
  exit_check_1 (Str.strip l) || exit_check_2 (Str.strip l)
    || exit_check_3 (Str.strip l) = true ->
  loop_body st l = Break (leave_bss st).
Proof.
  intros Hin Hex. unfold loop_body. rewrite Hin. simpl.
  destruct (Str.strip l) as [|c s] eqn:Hl; [vm_compute in Hex; discriminate|].
  simpl. destruct (exit_check_1 _); [reflexivity|].
  destruct (exit_check_2 _); [reflexivity|].
  destruct (exit_check_3 _); [reflexivity|discriminate].
Qed.

Lemma break_ends_scan pre l tail st :
  steps pre init_locals = Continue st ->
  loop_body st l = Break (leave_bss st) ->
  scan (file_app pre (Line l tail)) init_locals = inr (leave_bss st) /\
  parse_file (file_app pre (Line l tail)) = parse_lines pre.
Proof.
  intros Hpre Hbreak.
  assert (scan (file_app pre (Line l tail)) init_locals = inr (leave_bss st))
    as Hscan.
  { rewrite scan_file_app, Hpre. simpl. now rewrite Hbreak. }
  split; [exact Hscan|].
  rewrite (parse_file_scan _ _ Hscan). unfold parse_lines.
  rewrite (parse_file_scan (file_of_lines pre) st); [reflexivity|].
  now rewrite file_of_lines_app, scan_file_app, Hpre.
Qed.

Lemma add_symbol_context st c s :
  current_object_file_context (add_symbol st c s) = c.
Proof. unfold add_symbol. now destruct (decide _). Qed.

(** The context changes only on a record whose remainder names an object
    file (lines 159 to 166). *)
Lemma record_line_context st s st' :
  record_line st s = Continue st' ->
  current_object_file_context st' <> current_object_file_context st ->
  exists lm om,
    re_match false line_parser_pattern s = Some lm /\
    re_match false obj_file_and_section_content_pattern
             (Str.strip (group_of lm 5)) = Some om /\
    current_object_file_context st' = Str.strip (group_of om 1) /\
    existsb (Str.endswith (current_object_file_context st'))
            object_extensions = true.
Proof.
  unfold record_line.
  destruct (re_match false line_parser_pattern s) as [lm|] eqn:Hlm.
  2:{ intros [= <-] Hne. congruence. }
  destruct (Str.int16 (group_of lm 3)) as [sz|].
  2:{ intros [= <-] Hne. congruence. }
  destruct (classify_remainder _ _) as [[context nm] obj] eqn:Hcl.
  destruct (classify_spec _ _ _ _ _ Hcl) as (_ & _ & Hchg & _).
  assert (current_object_file_context st' = context ->
          current_object_file_context st' <> current_object_file_context st ->
          exists lm0 om,
            Some lm = Some lm0 /\
            re_match false obj_file_and_section_content_pattern
                     (Str.strip (group_of lm0 5)) = Some om /\
            current_object_file_context st' = Str.strip (group_of om 1) /\
            existsb (Str.endswith (current_object_file_context st'))
                    object_extensions = true) as Hgo.
  { intros -> Hne. destruct (Hchg Hne) as (om & H1 & H2 & H3).
    exists lm, om. auto. }
  destruct (truthy_opt nm && _).
  - destruct (Str.int16 (group_of lm 1)); [|discriminate].
    intros [= <-]. apply Hgo, add_symbol_context.
  - intros [= <-]. now apply Hgo.
Qed.

Lemma loop_body_context st l st' :
  loop_body st l = Continue st' ->
  current_object_file_context st' <> current_object_file_context st ->
  exists lm om,
    re_match false line_parser_pattern (Str.strip l) = Some lm /\
    re_match false obj_file_and_section_content_pattern
             (Str.strip (group_of lm 5)) = Some om /\
    current_object_file_context st' = Str.strip (group_of om 1) /\
    existsb (Str.endswith (current_object_file_context st'))
            object_extensions = true.
Proof.
  unfold loop_body.
  destruct (negb (Str.truthy _)); [intros [= <-]; congruence|].
  destruct (negb (in_bss_section st)).
  { destruct (re_match false bss_header_pattern _);
      [destruct (Str.int16 _)|]; intros [= <-]; simpl; congruence. }
  destruct (exit_check_1 _); [discriminate|].
  destruct (exit_check_2 _); [discriminate|].
  destruct (exit_check_3 _); [discriminate|].
  apply record_line_context.
Qed.

(** * The claims *)

(** C1 (the claim fails on the code).  Inside the section, the line
    "d0000000 d0000000 10 4 DEBUG" does not stop the scan: the first exit
    pattern asks for a dot before the section name, so the line passes all
    three checks and is recorded as a 16-byte symbol named DEBUG.  The same
    line with ".DEBUG" does stop the scan. *)
Theorem debug_header_is_recorded_as_symbol :
  exit_check_1 "d0000000 d0000000 10 4 DEBUG" = false /\
  exit_check_1 "d0000000 d0000000 10 4 .DEBUG" = true /\
  parse_lines [bss_header_line; "d0000000 d0000000 10 4 DEBUG"] =
    Returned ([Symbol "DEBUG" "10" 16 3489660928 "unknown" (Some 0)],
              29824, 0).
Proof. repeat split; vm_compute; reflexivity. Qed.

(** C2 (the claim fails on the code).  With [total_bss_size] zero and a
    non-empty symbol list, [print_symbols] raises [ZeroDivisionError] in
    the column-width loop, after printing the banner only; no row and no
    percentage is printed.  Such a parse result is reachable: a header of
    size 0 followed by a symbol. *)
Theorem print_symbols_zero_total_divides_by_zero :
  (forall percent_2f s syms total_padding with_sdk min_size with_hex,
     print_symbols percent_2f (s :: syms) 0 total_padding
                   with_sdk min_size with_hex =
     (["--- BSS Symbols ---"],
      Some (Exn ZeroDivisionError "division by zero"))) /\
  parse_lines ["0 0 0 8 .bss"; "10 10 4 4 G_x"] =
    Returned ([Symbol "G_x" "4" 4 16 "unknown" (Some 0)], 0, 0).
Proof.
  split; [|vm_compute; reflexivity].
  intros pct s syms tp sdk mn hx. unfold print_symbols.
  destruct (sort_by_desc size_dec (s :: syms)) as [|x l] eqn:Hsort.
  - assert (sort_by_desc size_dec (s :: syms) ≡ₚ s :: syms) as Hp
      by apply sort_by_perm.
    rewrite Hsort in Hp. now apply Permutation_nil_cons in Hp.
  - reflexivity.
Qed.

(** C3.  The list [parse_map_file] returns holds no two symbols with the
    same (name, object_file, size).  During the scan a candidate whose
    triple is already in the list is dropped and the list is unchanged;
    every iteration leaves the earlier symbols at their positions.
    Scenario C: the repeated line changes nothing. *)
Theorem parse_map_file_keys_unique_first_seen :
  (forall open_ path syms total pad,
     parse_map_file open_ path = Returned (syms, total, pad) ->
     NoDup (key_of <$> syms)) /\
  (forall ls st context s,
     steps ls init_locals = Continue st ->
     key_of s ∈ keys st ->
     bss_symbols (add_symbol st context s) = bss_symbols st) /\
  (forall ls st l st',
     steps ls init_locals = Continue st ->
     loop_body st l = Continue st' \/ loop_body st l = Break st' ->
     bss_symbols st `prefix_of` bss_symbols st' /\ NoDup (keys st')) /\
  parse_lines [bss_header_line; "c0de0010 c0de0010 4 4 G_x";
               "c0de0010 c0de0010 4 4 G_x"] =
    Returned ([Symbol "G_x" "4" 4 3235774480 "unknown" (Some 0)], 29824, 0).
Proof.
  split; [|split; [|split]].
  - intros open_ path syms total pad H.
    apply parse_map_file_result in H
      as (f & st & _ & _ & (_ & Hnd & _) & Hpad & _).
    apply padding_pass_fields in Hpad as (_ & _ & ->).
    unfold keys in Hnd. now rewrite sort_by_perm.
  - intros ls st context s Hst Hin.
    apply steps_continue_inv in Hst as (Hset & _).
    unfold add_symbol. apply Hset in Hin.
    now destruct (decide _).
  - intros ls st l st' Hst Hbody.
    apply steps_continue_inv in Hst.
    destruct (loop_body_ok st l Hst) as (st1 & Hb & (_ & Hnd & _) & Hext).
    assert (st1 = st') as -> by (destruct Hb, Hbody; congruence).
    split; [now apply extends_prefix | exact Hnd].
  - vm_compute. reflexivity.
Qed.

Lemma parse_map_file_keys_unique_witness :
  parse_lines [bss_header_line; "c0de0010 c0de0010 4 4 G_x";
               "c0de0010 c0de0010 4 4 G_x"; "c0de0014 c0de0014 8 4 G_y"] =
    Returned ([Symbol "G_x" "4" 4 3235774480 "unknown" (Some 0);
               Symbol "G_y" "8" 8 3235774484 "unknown" (Some 0)], 29824, 0) /\
  NoDup (key_of <$> [Symbol "G_x" "4" 4 3235774480 "unknown" (Some 0);
                     Symbol "G_y" "8" 8 3235774484 "unknown" (Some 0)]).
Proof.
  split; [vm_compute; reflexivity|].
  apply (proj1 parse_map_file_keys_unique_first_seen
           (single_file "app.map"
              (file_of_lines
                 [bss_header_line; "c0de0010 c0de0010 4 4 G_x";
                  "c0de0010 c0de0010 4 4 G_x"; "c0de0014 c0de0014 8 4 G_y"]))
           "app.map" _ 29824 0).
  vm_compute. reflexivity.
Defined.

Lemma ascending_fmap {A} (key : A -> Z) l :
  ascending (fun z => z) (key <$> l) <-> ascending key l.
Proof.
  split; intros H i j a b Hij Hi Hj.
  - apply (H i j (key a) (key b) Hij); rewrite list_lookup_fmap.
    + now rewrite Hi.
    + now rewrite Hj.
  - rewrite list_lookup_fmap in Hi, Hj.
    destruct (l !! i) as [x|] eqn:Hx; [|discriminate].
    destruct (l !! j) as [y|] eqn:Hy; [|discriminate].
    injection Hi as <-. injection Hj as <-. eapply H; eassumption.
Qed.

(** C4.  The returned list is in ascending address order; the first
    symbol has padding 0; every later symbol has the padding
    max(0, address - previous_end), where previous_end is the address
    plus the size of the symbol before it; no padding is negative; and
    [total_padding] is the sum of the paddings.  Scenario D: a 4-byte
    symbol at 0x100 followed by a symbol at 0x108 gives the second one a
    padding of 4. *)
Theorem parse_map_file_sorted_and_padded :
  (forall open_ path syms total pad,
     parse_map_file open_ path = Returned (syms, total, pad) ->
     ascending vma syms /\
     (forall a, syms !! 0%nat = Some a -> padding_before a = Some 0) /\
     (forall i a b, syms !! i = Some a -> syms !! S i = Some b ->
        padding_before b = Some (Z.max 0 (vma b - end_of a))) /\
     (forall i a, syms !! i = Some a ->
        exists p, padding_before a = Some p /\ 0 <= p) /\
     pad = sum_padding syms) /\
  parse_lines [bss_header_line; "100 100 4 4 G_a"; "108 108 8 4 G_b"] =
    Returned ([Symbol "G_a" "4" 4 256 "unknown" (Some 0);
               Symbol "G_b" "8" 8 264 "unknown" (Some 4)], 29824, 4).
Proof.
  split; [|vm_compute; reflexivity].
  intros open_ path syms total pad H.
  apply parse_map_file_result in H as (f & st & _ & _ & _ & Hpad & _).
  destruct (padding_pass_fields _ _ _ _ _ Hpad) as (Hvma & _ & _).
  destruct (padding_pass_spec _ _ _ _ _ Hpad) as (H0 & Hnext & Htot).
  split; [|split; [|split; [|split]]].
  - apply ascending_fmap. rewrite Hvma. apply ascending_fmap.
    apply strongly_sorted_ascending, sort_by_sorted.
  - exact H0.
  - exact Hnext.
  - intros [|i] a Ha.
    + rewrite (H0 _ Ha). exists 0. split; [reflexivity | lia].
    + destruct (syms !! i) as [z|] eqn:Hz.
      * rewrite (Hnext _ _ _ Hz Ha). eexists. split; [reflexivity | lia].
      * apply lookup_ge_None in Hz. apply lookup_lt_Some in Ha. lia.
  - lia.
Qed.

Lemma parse_map_file_sorted_and_padded_witness :
  parse_lines [bss_header_line; "108 108 8 4 G_b"; "100 100 4 4 G_a"] =
    Returned ([Symbol "G_a" "4" 4 256 "unknown" (Some 0);
               Symbol "G_b" "8" 8 264 "unknown" (Some 4)], 29824, 4) /\
  4 = sum_padding [Symbol "G_a" "4" 4 256 "unknown" (Some 0);
                   Symbol "G_b" "8" 8 264 "unknown" (Some 4)].
Proof.
  split; [vm_compute; reflexivity|].
  apply (proj1 parse_map_file_sorted_and_padded
           (single_file "app.map"
              (file_of_lines
                 [bss_header_line; "108 108 8 4 G_b"; "100 100 4 4 G_a"]))
           "app.map" _ 29824 4).
  vm_compute. reflexivity.
Defined.




(** A record whose remainder names an object file leaves the locals with
    that file as the context, whether or not it records a symbol
    (lines 159 to 168). *)
Lemma record_line_sets_context st s lm om :
  re_match false line_parser_pattern s = Some lm ->
  re_match false obj_file_and_section_content_pattern
           (Str.strip (group_of lm 5)) = Some om ->
  existsb (Str.endswith (Str.strip (group_of om 1))) object_extensions
    = true ->
  exists st', record_line st s = Continue st' /\
              current_object_file_context st' = Str.strip (group_of om 1).
Proof.
  intros Hlm Hom Hext. unfold record_line. rewrite Hlm.
  destruct (line_parser_size_decodes _ _ Hlm) as (sz & -> & _).
  destruct (classify_remainder _ _) as [[context nm] obj] eqn:Hcl.
  assert (context = Str.strip (group_of om 1)) as ->.
  { unfold classify_remainder in Hcl. rewrite Hom, Hext in Hcl.
    now injection Hcl as <- _ _. }
  destruct (truthy_opt nm && _).
  - destruct (line_parser_vma_decodes _ _ Hlm) as (v & -> & _).
    eexists. split; [reflexivity | apply add_symbol_context].
  - eexists. split; reflexivity.
Qed.

Lemma loop_body_records st l lm :
  in_bss_section st = true ->
  exit_check_1 (Str.strip l) = false ->
  exit_check_2 (Str.strip l) = false ->
  exit_check_3 (Str.strip l) = false ->
  re_match false line_parser_pattern (Str.strip l) = Some lm ->
  loop_body st l = record_line st (Str.strip l).
Proof.
  intros Hin H1 H2 H3 Hlm. unfold loop_body. rewrite Hin, H1, H2, H3.
  destruct (Str.strip l) as [|c s]; [vm_compute in Hlm; discriminate|].
  reflexivity.
Qed.

(** C6.  Inside the section the sticky object file context changes only
    on a record whose remainder has the form path:(content) with a path
    ending in .o, .obj, .a, .lib, .elf or .s, and then it becomes that
    path; a record of that form with such a path always leaves the
    scanner with that path as the context, whether or not it records a
    symbol; a record whose remainder is not of that form, a plain symbol
    line among them, leaves the context unchanged; and a symbol recorded
    by a line carries the context as it is after the line.  Scenario B:
    the two lines yield G_x (4 bytes) and G_y (8 bytes), both of
    build/obj/app/foo.o; and an object file line that records no symbol
    still hands its file to the plain symbol line after it. *)
Theorem sticky_object_file_context :
  (forall ls st l st',
     steps ls init_locals = Continue st ->
     loop_body st l = Continue st' ->
     (current_object_file_context st' <> current_object_file_context st ->
      exists lm om ext,
        re_match false line_parser_pattern (Str.strip l) = Some lm /\
        re_match false obj_file_and_section_content_pattern
                 (Str.strip (group_of lm 5)) = Some om /\
        current_object_file_context st' = Str.strip (group_of om 1) /\
        In ext object_extensions /\
        Str.endswith (current_object_file_context st') ext = true) /\
     (bss_symbols st' = bss_symbols st \/
      exists s, bss_symbols st' = bss_symbols st ++ [s] /\
                object_file s = current_object_file_context st')) /\
  (forall ls st l lm om ext,
     steps ls init_locals = Continue st ->
     in_bss_section st = true ->
     exit_check_1 (Str.strip l) = false ->
     exit_check_2 (Str.strip l) = false ->
     exit_check_3 (Str.strip l) = false ->
     re_match false line_parser_pattern (Str.strip l) = Some lm ->
     re_match false obj_file_and_section_content_pattern
              (Str.strip (group_of lm 5)) = Some om ->
     In ext object_extensions ->
     Str.endswith (Str.strip (group_of om 1)) ext = true ->
     exists st',
       loop_body st l = Continue st' /\
       current_object_file_context st' = Str.strip (group_of om 1)) /\
  (forall ls st l st' lm,
     steps ls init_locals = Continue st ->
     loop_body st l = Continue st' ->
     re_match false line_parser_pattern (Str.strip l) = Some lm ->
     re_match false obj_file_and_section_content_pattern
              (Str.strip (group_of lm 5)) = None ->
     current_object_file_context st' = current_object_file_context st) /\
  (forall context rem om ext,
     re_match false obj_file_and_section_content_pattern rem = Some om ->
     In ext object_extensions ->
     Str.endswith (Str.strip (group_of om 1)) ext = true ->
     (classify_remainder context rem).1.1 = Str.strip (group_of om 1)) /\
  (forall context rem,
     re_match false obj_file_and_section_content_pattern rem = None ->
     (classify_remainder context rem).1.1 = context) /\
  parse_lines [bss_header_line;
               "c0de0010 c0de0010 4 4 build/obj/app/foo.o:(.bss.G_x)";
               "c0de0014 c0de0014 8 4 G_y"] =
    Returned ([Symbol "G_x" "4" 4 3235774480 "build/obj/app/foo.o" (Some 0);
               Symbol "G_y" "8" 8 3235774484 "build/obj/app/foo.o" (Some 0)],
              29824, 0) /\
  parse_lines [bss_header_line;
               "c0de0010 c0de0010 4 4 build/obj/app/foo.o:(.comment)";
               "c0de0014 c0de0014 8 4 G_y"] =
    Returned ([Symbol "G_y" "8" 8 3235774484 "build/obj/app/foo.o" (Some 0)],
              29824, 0).
Proof.
  split; [|split; [|split; [|split; [|split; [|split]]]]].
  - intros ls st l st' Hst Hbody. split.
    + intros Hne.
      destruct (loop_body_context _ _ _ Hbody Hne)
        as (lm & om & H1 & H2 & H3 & H4).
      apply existsb_exists in H4 as (ext & Hext & Hends).
      exists lm, om, ext. auto.
    + apply steps_continue_inv in Hst.
      destruct (loop_body_ok st l Hst) as (st1 & Hb & _ & Hext).
      assert (st1 = st') as -> by (destruct Hb; congruence).
      destruct Hext as [H|(s & H1 & _ & H2)]; [now left|right; eauto].
  - intros ls st l lm om ext _ Hin H1 H2 H3 Hlm Hom Hext Hends.
    rewrite (loop_body_records st l lm Hin H1 H2 H3 Hlm).
    apply (record_line_sets_context st _ lm om Hlm Hom).
    apply existsb_exists. eauto.
  - intros ls st l st' lm _ Hbody Hlm Hom.
    destruct (String.string_dec (current_object_file_context st')
                                (current_object_file_context st)) as [E|Hne];
      [exact E|].
    destruct (loop_body_context _ _ _ Hbody Hne) as (lm' & om & H1 & H2 & _).
    rewrite Hlm in H1. injection H1 as <-. congruence.
  - intros context rem om ext Hm Hin Hends. unfold classify_remainder.
    rewrite Hm.
    assert (existsb (Str.endswith (Str.strip (group_of om 1)))
                    object_extensions = true) as ->.
    { apply existsb_exists. eauto. }
    reflexivity.
  - intros context rem Hm. unfold classify_remainder. rewrite Hm.
    now destruct (re_match false plain_symbol_pattern rem).
  - vm_compute. reflexivity.
  - vm_compute. reflexivity.
Qed.

Lemma sticky_object_file_context_witness :
  (exists st st',
     steps [bss_header_line;
            "c0de0010 c0de0010 4 4 build/obj/app/foo.o:(.bss.G_x)"]
           init_locals = Continue st /\
     loop_body st "c0de0014 c0de0014 8 4 G_y" = Continue st' /\
     (bss_symbols st' = bss_symbols st \/
      exists s, bss_symbols st' = bss_symbols st ++ [s] /\
                object_file s = current_object_file_context st')) /\
  (exists st st',
     steps [bss_header_line] init_locals = Continue st /\
     loop_body st "c0de0010 c0de0010 4 4 build/obj/app/foo.o:(.comment)"
       = Continue st' /\
     current_object_file_context st' = "build/obj/app/foo.o").
Proof.
  split.
  - eexists. eexists.
    assert (forall A B C : Prop, A -> B -> (A -> B -> C) -> A /\ B /\ C) as K
      by tauto.
    apply K.
    + vm_compute. reflexivity.
    + vm_compute. reflexivity.
    + intros H1 H2.
      exact (proj2 (proj1 sticky_object_file_context _ _ _ _ H1 H2)).
  - eexists.
    assert (forall (A : Prop) (B : locals -> Prop),
              A -> (A -> exists s, B s) -> exists s, A /\ B s) as K.
    { intros A B a f. destruct (f a) as [s b]. exists s. auto. }
    apply K.
    + vm_compute. reflexivity.
    + intros H1.
      apply (proj1 (proj2 sticky_object_file_context) _ _
               "c0de0010 c0de0010 4 4 build/obj/app/foo.o:(.comment)"
               [(5%nat, "build/obj/app/foo.o:(.comment)"); (4%nat, "4");
                (3%nat, "4"); (2%nat, "c0de0010"); (1%nat, "c0de0010")]
               [(2%nat, ".comment"); (1%nat, "build/obj/app/foo.o")]
               ".o" H1).
      * reflexivity.
      * vm_compute. reflexivity.
      * vm_compute. reflexivity.
      * vm_compute. reflexivity.
      * vm_compute. reflexivity.
      * vm_compute. reflexivity.
      * simpl. auto.
      * vm_compute. reflexivity.
Defined.

(** C7.  Inside the section, a record whose size decodes to 0 and whose
    symbol name is _bss or _ebss adds no symbol: the list after the line
    is the list before it (a line naming _ebss ends the scan, a zero-size
    _bss is skipped).  Scenario E. *)
Theorem linker_artifacts_are_not_added :
  (forall ls st l lm context nm obj,
     steps ls init_locals = Continue st ->
     in_bss_section st = true ->
     re_match false line_parser_pattern (Str.strip l) = Some lm ->
     Str.int16 (group_of lm 3) = Some 0 ->
     classify_remainder (current_object_file_context st)
                        (Str.strip (group_of lm 5)) = (context, nm, obj) ->
     nm = Some "_bss" \/ nm = Some "_ebss" ->
     exists st',
       (loop_body st l = Continue st' \/ loop_body st l = Break st') /\
       bss_symbols st' = bss_symbols st) /\
  parse_lines [bss_header_line; "da7a0000 da7a0000 4 4 G_x";
               "da7a7480 da7a7480 0 1 _ebss"] =
    parse_lines [bss_header_line; "da7a0000 da7a0000 4 4 G_x"] /\
  parse_lines [bss_header_line; "da7a0000 da7a0000 0 1 _bss";
               "da7a0000 da7a0000 4 4 G_x"] =
    parse_lines [bss_header_line; "da7a0000 da7a0000 4 4 G_x"].
Proof.
  split; [|split; vm_compute; reflexivity].
  intros ls st l lm context nm obj _ Hin Hlm Hsz Hcl Hnm.
  unfold loop_body. rewrite Hin. simpl.
  destruct (negb (Str.truthy _)); [exists st; auto|].
  destruct (exit_check_1 _); [exists (leave_bss st); auto|].
  destruct (exit_check_2 _); [exists (leave_bss st); auto|].
  destruct (exit_check_3 _); [exists (leave_bss st); auto|].
  unfold record_line. rewrite Hlm, Hsz, Hcl.
  assert (opt_eqb nm "_bss" || opt_eqb nm "_ebss" = true) as Hart
    by (destruct Hnm as [-> | ->]; reflexivity).
  rewrite Hart. simpl. rewrite andb_false_r.
  exists (with_context st context). auto.
Qed.

Lemma linker_artifacts_are_not_added_witness :
  exists st st',
    steps [bss_header_line; "da7a0000 da7a0000 4 4 G_x"] init_locals
      = Continue st /\
    (loop_body st "da7a0004 da7a0004 0 1 _bss" = Continue st' \/
     loop_body st "da7a0004 da7a0004 0 1 _bss" = Break st') /\
    bss_symbols st' = bss_symbols st.
Proof.
  eexists.
  assert (forall (A : Prop) (B : locals -> Prop),
            A -> (A -> exists s, B s) -> exists s, A /\ B s) as K.
  { intros A B a f. destruct (f a) as [s b]. exists s. auto. }
  apply K.
  - vm_compute. reflexivity.
  - intros H1.
    eapply (proj1 linker_artifacts_are_not_added _ _ _ _ _ _ _ H1).
    + reflexivity.
    + vm_compute. reflexivity.
    + vm_compute. reflexivity.
    + vm_compute. reflexivity.
    + left. reflexivity.
Defined.

(** C8, as the specification words it, fails on the code: a line whose
    dotted tag ends the line (here the header of a section named .noinit)
    does not stop the scan, because the pattern of the third check asks
    for white space after the tag and the line is stripped first.  The
    scan is still inside the section after the line, and the symbol of the
    next line is recorded. *)
Lemma dotted_tag_at_end_of_line_does_not_exit :
  exists st,
    steps [bss_header_line] init_locals = Continue st /\
    in_bss_section st = true /\
    spec_dotted_tag_not_bss (Str.strip "c0de0010 c0de0010 4 4 .noinit") = true /\
    loop_body st "c0de0010 c0de0010 4 4 .noinit" = Continue st /\
    parse_lines [bss_header_line; "c0de0010 c0de0010 4 4 .noinit";
                 "c0de0014 c0de0014 8 4 G_y"] =
      Returned ([Symbol "G_y" "8" 8 3235774484 "unknown" (Some 0)], 29824, 0).
Proof.
  eexists. split; [vm_compute; reflexivity|].
  repeat split; vm_compute; reflexivity.
Qed.

(** C8, amended.  Inside the section, a line whose stripped text has a
    dotted tag followed by white space (a match of "\.\w+\s+") and has no
    ".bss" anywhere ends the scan at that line: the loop breaks and nothing
    after the line is read. *)
Theorem dotted_tag_before_space_exits pre l tail st :
  steps pre init_locals = Continue st ->
  in_bss_section st = true ->
  matched (re_search false dotted_word_space_pattern (Str.strip l)) = true ->
  matched (re_search false dot_bss_pattern (Str.strip l)) = false ->
  loop_body st l = Break (leave_bss st) /\
  scan (file_app pre (Line l tail)) init_locals = inr (leave_bss st) /\
  bss_symbols (leave_bss st) = bss_symbols st.
Proof.
  intros Hpre Hin Hdot Hbss.
  assert (loop_body st l = Break (leave_bss st)) as Hbreak.
  { apply exit_check_breaks; [exact Hin|].
    unfold exit_check_3. rewrite Hdot, Hbss. simpl.
    now rewrite !orb_true_r. }
  destruct (break_ends_scan pre l tail st Hpre Hbreak). auto.
Qed.

Lemma dotted_tag_before_space_exits_witness :
  exists st,
    steps [bss_header_line; "c0de0010 c0de0010 4 4 G_x"] init_locals
      = Continue st /\
    loop_body st ".data           0x20000000       0x40" = Break (leave_bss st).
Proof.
  eexists.
  assert (forall A B : Prop, A -> (A -> B) -> A /\ B) as K by tauto.
  apply K.
  - vm_compute. reflexivity.
  - intros H1.
    apply (dotted_tag_before_space_exits _ _ Eof _ H1).
    + reflexivity.
    + vm_compute. reflexivity.
    + vm_compute. reflexivity.
Defined.

Lemma message_nonempty e path :
  (if eclass_eqb (exn_class e) FileNotFoundError
   then not_found_message path else unexpected_message e) <> "".
Proof. destruct (eclass_eqb _ _); discriminate. Qed.

(** C9.  [parse_map_file] ends the process only when the path cannot be
    opened or when a read of the file fails; it then writes one
    diagnostic line to the error stream and exits with status 1.  A file
    that opens and reads through is parsed to a result whatever its lines
    are: no content makes the parser fail. *)
Theorem parse_map_file_fatal_errors open_ path :
  (forall status stderr,
     parse_map_file open_ path = SysExit status stderr ->
     status = 1 /\ (exists msg, stderr = [msg] /\ msg <> "") /\
     ((exists e, open_ path = inl e) \/
      (exists f, open_ path = inr f /\ has_read_error f = true))) /\
  (forall e, open_ path = inl e ->
     exists msg, parse_map_file open_ path = SysExit 1 [msg]) /\
  (forall pre st e,
     open_ path = inr (file_app pre (ReadError e)) ->
     steps pre init_locals = Continue st ->
     exists msg, parse_map_file open_ path = SysExit 1 [msg]) /\
  (forall ls, open_ path = inr (file_of_lines ls) ->
     exists syms total pad,
       parse_map_file open_ path = Returned (syms, total, pad)).
Proof.
  split; [|split; [|split]].
  - intros status stderr H.
    destruct (parse_body_cases open_ path)
      as [(e & Ho & Hb)
         |[(f & e & Ho & He & Hb)
          |(f & st & s & p & _ & _ & _ & _ & Hb)]].
    + rewrite (parse_map_file_raised _ _ _ Hb) in H. injection H as <- <-.
      split; [reflexivity|]. split; [|eauto].
      eexists. split; [reflexivity | apply message_nonempty].
    + rewrite (parse_map_file_raised _ _ _ Hb) in H. injection H as <- <-.
      split; [reflexivity|]. split; [|eauto].
      eexists. split; [reflexivity | apply message_nonempty].
    + rewrite (parse_map_file_returned _ _ _ Hb) in H. discriminate.
  - intros e Ho. eexists. apply parse_map_file_raised.
    unfold parse_body. now rewrite Ho.
  - intros pre st e Ho Hpre. eexists. apply parse_map_file_raised.
    unfold parse_body. rewrite Ho, scan_file_app, Hpre. reflexivity.
  - intros ls Ho.
    destruct (parse_body_cases open_ path)
      as [(e & Ho' & _)
         |[(f & e & Ho' & He & _)
          |(f & st & s & p & _ & _ & _ & _ & Hb)]].
    + congruence.
    + rewrite Ho in Ho'. injection Ho' as <-.
      exfalso. clear -He. induction ls; simpl in He; [discriminate | auto].
    + exists s, (total_bss_size st), p. now apply parse_map_file_returned.
Qed.

Lemma parse_map_file_fatal_errors_witness :
  (exists msg,
     parse_map_file (single_file "app.map" Eof) "missing.map"
       = SysExit 1 [msg]) /\
  (exists msg,
     parse_file (file_app [bss_header_line; "zz not a record"]
                   (ReadError (Exn OSError "[Errno 5] Input/output error")))
       = SysExit 1 [msg]) /\
  (exists syms total pad,
     parse_lines [bss_header_line; "c0de0010 c0de0010 xyz 4 G_x";
                  "c0de0010 c0de0010 4 4 9bad"; "c0de0014 c0de0014 8 4 G_y"]
       = Returned (syms, total, pad)).
Proof.
  split; [|split].
  - eapply (proj1 (proj2 (parse_map_file_fatal_errors _ "missing.map"))).
    vm_compute. reflexivity.
  - eapply (proj1 (proj2 (proj2 (parse_map_file_fatal_errors _ "app.map")))
              [bss_header_line; "zz not a record"] _
              (Exn OSError "[Errno 5] Input/output error")).
    + reflexivity.
    + vm_compute. reflexivity.
  - apply (proj2 (proj2 (proj2 (parse_map_file_fatal_errors _ "app.map")))
             [bss_header_line; "c0de0010 c0de0010 xyz 4 G_x";
              "c0de0010 c0de0010 4 4 9bad"; "c0de0014 c0de0014 8 4 G_y"]).
    reflexivity.
Defined.

(** C10.  [parse_map_file] never lets an exception through: whatever the
    body of the [try] raises, a [FileNotFoundError] or any other
    exception, the process exits with status 1 after one diagnostic line
    on the error stream; and when the function returns, it returns the
    triple of the symbol list, [total_bss_size] and [total_padding]. *)
Theorem parse_map_file_never_propagates open_ path :
  (forall e, parse_map_file open_ path <> Propagated e) /\
  (forall e, parse_body open_ path = inl e ->
     parse_map_file open_ path =
     SysExit 1 [if eclass_eqb (exn_class e) FileNotFoundError
                then not_found_message path else unexpected_message e]) /\
  (forall r, parse_map_file open_ path = Returned r ->
     exists f st syms pad,
       open_ path = inr f /\ scan f init_locals = inr st /\
       padding_pass (sort_by vma (bss_symbols st)) 0 None = (syms, pad) /\
       r = (syms, total_bss_size st, pad)).
Proof.
  split; [|split].
  - intros e H.
    destruct (parse_body open_ path) as [e'|r] eqn:Hb.
    + rewrite (parse_map_file_raised _ _ _ Hb) in H. discriminate.
    + rewrite (parse_map_file_returned _ _ _ Hb) in H. discriminate.
  - apply parse_map_file_raised.
  - intros [[syms total] pad] H.
    apply parse_map_file_result in H as (f & st & Ho & Hs & _ & Hp & ->).
    exists f, st, syms, pad. auto.
Qed.

Lemma parse_map_file_never_propagates_witness :
  parse_map_file (single_file "app.map" Eof) "missing.map" =
    SysExit 1 ["Error: Map file 'missing.map' not found."] /\
  parse_file (Line bss_header_line
                (ReadError (Exn UnicodeDecodeError
                   "'utf-8' codec can't decode byte 0xff"))) =
    SysExit 1 ["An unexpected error occurred while parsing the map file: 'utf-8' codec can't decode byte 0xff"].
Proof.
  split.
  - eapply eq_trans.
    + eapply (proj1 (proj2 (parse_map_file_never_propagates _ "missing.map"))).
      vm_compute. reflexivity.
    + vm_compute. reflexivity.
  - eapply eq_trans.
    + eapply (proj1 (proj2 (parse_map_file_never_propagates _ "app.map"))).
      vm_compute. reflexivity.
    + vm_compute. reflexivity.
Defined.

(** * Further properties of the matcher *)

Lemma re_search_in ic r s : forall b m,
  search_from ic r b s = Some m ->
  exists b' s' q, In q (matches ic r (MkPos b' s' [])) /\ caps q = m.
Proof.
  induction s as [|c s IH]; intros b m H; simpl in H.
  - destruct (matches ic r (MkPos b "" [])) as [|q l] eqn:Hq; [discriminate|].
    injection H as <-. exists b, "", q. rewrite Hq. split; [now left|reflexivity].
  - destruct (matches ic r (MkPos b (String c s) [])) as [|q l] eqn:Hq.
    + eapply IH. eassumption.
    + injection H as <-. exists b, (String c s), q. rewrite Hq.
      split; [now left|reflexivity].
Qed.

Lemma in_cset_plain cs c : in_cset false cs c = cset_has cs c.
Proof. unfold in_cset. apply orb_false_r. Qed.

Lemma matches_ident n r : forall p q,
  captures_ident n r = true -> In q (matches false r p) ->
  exists w, group n (caps q) = Some w /\ is_ident w = true.
Proof.
  induction r as [| | | |cs|cs lo g|cs|l|r1 IH1 r2 IH2|r1 IH1 r2 IH2|m r1 IH1];
    intros p q Hc Hin; simpl in Hc; try discriminate.
  - simpl in Hin. apply in_flat_map in Hin as (mid & Hmid & Hq).
    apply orb_true_iff in Hc as [Hc|Hc].
    + eapply IH2; eassumption.
    + apply andb_true_iff in Hc as [Hc Hno].
      rewrite (matches_frame _ _ _ _ _ Hno Hq). eapply IH1; eassumption.
  - destruct r1 as [| | | |?|?|?|?|ra rb|? ?|? ?]; try discriminate.
    destruct ra as [| | | |h|?|?|?|? ?|? ?|? ?]; try discriminate.
    destruct rb as [| | | |?|t lo g|?|?|? ?|? ?|? ?]; try discriminate.
    destruct lo; [|discriminate].
    apply andb_true_iff in Hc as [Hc Ht].
    apply andb_true_iff in Hc as [Hm Hh].
    apply Nat.eqb_eq in Hm. subst m.
    apply cset_eqb_eq in Hh, Ht. subst h t.
    simpl in Hin. apply in_map_iff in Hin as (q' & <- & Hq').
    apply in_flat_map in Hq' as (mid & Hmid & Hq').
    destruct (rest p) as [|c s'] eqn:Hrest; [destruct Hmid|].
    destruct (in_cset false ident_head c) eqn:Hhead; [|destruct Hmid].
    destruct Hmid as [<-|[]]. simpl in Hq'.
    assert (In q' (List.skipn 0 (spans false ident_tail (Some c) s' (caps p))))
      as Hs by (destruct g; [apply in_rev in Hq'|]; exact Hq').
    apply spans_spec in Hs as (w & Hw & Hall & _ & _).
    rewrite in_cset_plain in Hhead.
    exists (String c w). split.
    + simpl. rewrite Nat.eqb_refl. unfold consumed. rewrite Hrest, Hw.
      change (String c (w +:+ rest q')) with (String c w +:+ rest q').
      now rewrite take_app_exact.
    + unfold is_ident. rewrite Hhead.
      rewrite (all_ext (cset_has ident_tail) (in_cset false ident_tail) w),
        Hall; [reflexivity|].
      intros x. symmetry. apply in_cset_plain.
Qed.

Lemma plain_symbol_name s m :
  re_match false plain_symbol_pattern s = Some m ->
  is_ident (group_of m 1) = true.
Proof.
  intros H. apply re_match_in in H as (q & Hq & <-).
  destruct (matches_ident 1 plain_symbol_pattern _ _ eq_refl Hq) as (w & Hw & Hi).
  unfold group_of. now rewrite Hw.
Qed.

Lemma symbol_in_section_name s m :
  re_search false symbol_in_section_pattern s = Some m ->
  is_ident (group_of m 1) = true.
Proof.
  intros H. apply re_search_in in H as (b & s' & q & Hq & <-).
  destruct (matches_ident 1 symbol_in_section_pattern _ _ eq_refl Hq)
    as (w & Hw & Hi).
  unfold group_of. now rewrite Hw.
Qed.

(** * Further properties of the scan *)

Lemma known_object_nonempty o : known_object o -> o <> "".
Proof.
  intros [->|H]; [discriminate | now apply endswith_extension_nonempty].
Qed.

Lemma classify_ok context rem context' nm obj :
  classify_remainder context rem = (context', nm, obj) ->
  known_object context ->
  known_object context' /\
  (forall n, nm = Some n -> is_ident n = true /\ obj = Some context').
Proof.
  unfold classify_remainder. intros H Hk.
  destruct (re_match false obj_file_and_section_content_pattern rem) as [m|].
  - destruct (existsb _ object_extensions) eqn:Hext;
      destruct (re_search false symbol_in_section_pattern _) as [sm|] eqn:Hsm;
      injection H as <- <- <-; (split; [first [now right | exact Hk]|]);
      intros n [= <-]; try discriminate;
      (split; [now apply (symbol_in_section_name _ _ Hsm) | reflexivity]).
  - destruct (re_match false plain_symbol_pattern rem) as [pm|] eqn:Hpm;
      injection H as <- <- <-; (split; [exact Hk|]); intros n [= <-].
    split; [now apply (plain_symbol_name _ _ Hpm) | reflexivity].
Qed.

Lemma locals_ok_init : locals_ok init_locals.
Proof. repeat split; [reflexivity | now left | constructor]. Qed.

Lemma record_line_locals_ok st s st' :
  locals_ok st -> record_line st s = Continue st' -> locals_ok st'.
Proof.
  intros (Htot & Hctx & Hall). unfold record_line.
  destruct (re_match false line_parser_pattern s) as [lm|] eqn:Hlm.
  2:{ intros [= <-]. repeat split; assumption. }
  pose proof (group_of_hexplus line_parser_pattern 3 _ _ eq_refl Hlm) as Hhex.
  destruct (int16_hexplus _ Hhex) as (sz & Hsz & Hsz0). rewrite Hsz.
  destruct (classify_remainder _ _) as [[context nm] obj] eqn:Hcl.
  destruct (classify_ok _ _ _ _ _ Hcl Hctx) as (Hk & Hnm).
  destruct (truthy_opt nm && _) eqn:Hadd.
  - destruct (line_parser_vma_decodes _ _ Hlm) as (v & -> & Hv0).
    apply andb_true_iff in Hadd as [Htr Hart].
    destruct nm as [n|]; [|discriminate].
    destruct (Hnm n eq_refl) as (Hid & ->).
    assert (truthy_opt (Some context) = true) as ->.
    { pose proof (known_object_nonempty _ Hk).
      destruct context; [congruence | reflexivity]. }
    intros [= <-]. unfold add_symbol.
    destruct (decide _); simpl; repeat split; try assumption.
    apply Forall_app. split; [assumption|].
    constructor; [|constructor].
    apply negb_true_iff in Hart.
    unfold scanned_ok, is_linker_artifact; simpl.
    split; [exact Hid|]. split; [exact Hhex|]. split; [exact Hsz|].
    split; [exact Hsz0|]. split; [exact Hv0|]. split; [exact Hk|].
    split; [exact Hart | reflexivity].
  - intros [= <-]. repeat split; assumption.
Qed.

Lemma record_line_no_break st s st' : record_line st s = Break st' -> False.
Proof.
  unfold record_line.
  destruct (re_match false line_parser_pattern s); [|discriminate].
  destruct (Str.int16 _); [|discriminate].
  destruct (classify_remainder _ _) as [[? ?] ?].
  destruct (truthy_opt _ && _); [|discriminate].
  destruct (Str.int16 _); discriminate.
Qed.

Lemma loop_body_locals_ok st l st' :
  locals_ok st ->
  loop_body st l = Continue st' \/ loop_body st l = Break st' ->
  locals_ok st'.
Proof.
  intros Hok. unfold loop_body.
  destruct (negb (Str.truthy _)); [intros [[= <-]|[=]]; exact Hok|].
  destruct (negb (in_bss_section st)).
  { destruct (re_match false bss_header_pattern _) as [m|] eqn:Hm.
    - destruct (bss_header_size_decodes _ _ Hm) as (v & -> & Hv).
      intros [[= <-]|[=]]. destruct Hok as (_ & H2 & H3).
      repeat split; assumption.
    - intros [[= <-]|[=]]; exact Hok. }
  assert (locals_ok (leave_bss st)) as Hleave
    by (destruct Hok as (H1 & H2 & H3); repeat split; assumption).
  destruct (exit_check_1 _); [intros [[=]|[= <-]]; exact Hleave|].
  destruct (exit_check_2 _); [intros [[=]|[= <-]]; exact Hleave|].
  destruct (exit_check_3 _); [intros [[=]|[= <-]]; exact Hleave|].
  intros [H|H]; [now apply (record_line_locals_ok st (Str.strip l) st')|].
  now apply record_line_no_break in H.
Qed.

(** A property of the locals that every iteration keeps holds at the end
    of the scan. *)
Lemma scan_preserves (P : locals -> Prop) :
  (forall st l st',
     P st -> loop_body st l = Continue st' \/ loop_body st l = Break st' ->
     P st') ->
  forall f st st', P st -> scan f st = inr st' -> P st'.
Proof.
  intros Hstep. induction f as [|l f IH|e]; intros st st' HP H; simpl in H.
  - now injection H as <-.
  - destruct (loop_body st l) as [st1|st1|e] eqn:Hb.
    + eapply IH; [|eassumption]. eapply Hstep; eauto.
    + injection H as <-. eapply Hstep; eauto.
    + discriminate.
  - discriminate.
Qed.

Lemma scan_locals_ok f st :
  scan f init_locals = inr st -> locals_ok st.
Proof.
  apply (scan_preserves locals_ok loop_body_locals_ok), locals_ok_init.
Qed.

Lemma record_line_keeps_total st s st' :
  record_line st s = Continue st' ->
  total_bss_size st' = total_bss_size st /\
  in_bss_section st' = in_bss_section st.
Proof.
  unfold record_line.
  destruct (re_match false line_parser_pattern s); [|intros [= <-]; auto].
  destruct (Str.int16 _); [|intros [= <-]; auto].
  destruct (classify_remainder _ _) as [[context nm] obj].
  destruct (truthy_opt _ && _); [|intros [= <-]; auto].
  destruct (Str.int16 _); [|discriminate].
  intros [= <-]. unfold add_symbol. destruct (decide _); auto.
Qed.

(** Inside the section no line changes [total_bss_size]. *)
Lemma loop_body_in_bss st l st' :
  in_bss_section st = true ->
  (loop_body st l = Continue st' ->
   total_bss_size st' = total_bss_size st /\ in_bss_section st' = true) /\
  (loop_body st l = Break st' -> total_bss_size st' = total_bss_size st).
Proof.
  intros Hin. unfold loop_body. rewrite Hin. simpl.
  destruct (negb (Str.truthy _)).
  { split; [intros [= <-]; auto | discriminate]. }
  destruct (exit_check_1 _); [split; [discriminate | now intros [= <-]]|].
  destruct (exit_check_2 _); [split; [discriminate | now intros [= <-]]|].
  destruct (exit_check_3 _); [split; [discriminate | now intros [= <-]]|].
  split.
  - intros H. apply record_line_keeps_total in H as [H1 H2].
    rewrite H2. auto.
  - intros H. now apply record_line_no_break in H.
Qed.

Lemma scan_in_bss_total f : forall st st',
  in_bss_section st = true -> scan f st = inr st' ->
  total_bss_size st' = total_bss_size st.
Proof.
  induction f as [|l f IH|e]; intros st st' Hin H; simpl in H.
  - now injection H as <-.
  - destruct (loop_body st l) as [st1|st1|e] eqn:Hb.
    + destruct (proj1 (loop_body_in_bss st l st1 Hin) Hb) as [Ht Hi].
      rewrite <- Ht. now apply IH.
    + injection H as <-. now apply (loop_body_in_bss st l st1 Hin).
    + discriminate.
  - discriminate.
Qed.

(** Outside the section a line that is not the header changes nothing. *)
Lemma loop_body_outside st l :
  in_bss_section st = false -> is_header l = false ->
  loop_body st l = Continue st.
Proof.
  unfold is_header, loop_body. intros -> H.
  destruct (negb (Str.truthy _)); [reflexivity|]. simpl.
  now destruct (re_match false bss_header_pattern _).
Qed.

Lemma steps_no_header pre : forall st,
  in_bss_section st = false ->
  forallb (fun l => negb (is_header l)) pre = true ->
  steps pre st = Continue st.
Proof.
  induction pre as [|l pre IH]; intros st Hin H; simpl in *; [reflexivity|].
  apply andb_true_iff in H as [Hl Hpre]. apply negb_true_iff in Hl.
  rewrite (loop_body_outside _ _ Hin Hl). now apply IH.
Qed.

Lemma parse_file_body f :
  parse_file f =
  match scan f init_locals with
  | inl e =>
      SysExit 1 [if eclass_eqb (exn_class e) FileNotFoundError
                 then not_found_message "app.map" else unexpected_message e]
  | inr st =>
      Returned (let '(syms, pad) :=
                  padding_pass (sort_by vma (bss_symbols st)) 0 None in
                (syms, total_bss_size st, pad))
  end.
Proof.
  destruct (scan f init_locals) as [e|st] eqn:Hs.
  - apply parse_map_file_raised. unfold parse_body. simpl. now rewrite Hs.
  - now apply parse_file_scan.
Qed.

(** The header line starts the section with its decoded size. *)
Lemma loop_body_header st l m v :
  in_bss_section st = false ->
  re_match false bss_header_pattern (Str.strip l) = Some m ->
  Str.int16 (group_of m 1) = Some v ->
  loop_body st l =
  Continue (Locals v (bss_symbols st) true (current_object_file_context st)
                   (added_symbols_set st)).
Proof.
  intros Hin Hm Hv. unfold loop_body. rewrite Hin. simpl.
  destruct (Str.strip l) as [|c s] eqn:Hl; [vm_compute in Hm; discriminate|].
  simpl. now rewrite Hm, Hv.
Qed.

(** * Further properties of [parse_map_file] *)

(** X1.  Lines before the section header are ignored, whatever they look
    like: the result is the one of the file without them.  A file with no
    header yields no symbol and the totals 0 and 0. *)
Theorem lines_before_header_are_ignored pre f :
  forallb (fun l => negb (is_header l)) pre = true ->
  parse_file (file_app pre f) = parse_file f /\
  parse_lines pre = Returned ([], 0, 0).
Proof.
  intros H. split.
  - rewrite !parse_file_body, scan_file_app.
    now rewrite (steps_no_header pre init_locals eq_refl H).
  - unfold parse_lines.
    rewrite parse_file_body, file_of_lines_app, scan_file_app.
    now rewrite (steps_no_header pre init_locals eq_refl H).
Qed.

Lemma lines_before_header_are_ignored_witness :
  parse_file
    (file_app ["Memory map"; ""; "c0de0010 c0de0010 4 4 G_early";
               "     VMA      LMA     Size Align Out     In      Symbol"]
       (file_of_lines [bss_header_line; "da7a0000 da7a0000 4 4 G_x"])) =
  parse_file (file_of_lines [bss_header_line; "da7a0000 da7a0000 4 4 G_x"]) /\
  parse_lines ["Memory map"; ""; "c0de0010 c0de0010 4 4 G_early";
               "     VMA      LMA     Size Align Out     In      Symbol"] =
  Returned ([], 0, 0).
Proof.
  apply lines_before_header_are_ignored. vm_compute. reflexivity.
Defined.

(** X2.  [total_bss_size] is the decoded size field of the first header
    line of the file, whatever follows it: later lines, a second header
    among them, never change it. *)
Theorem total_is_size_of_first_header pre h tail m v syms total pad :
  forallb (fun l => negb (is_header l)) pre = true ->
  re_match false bss_header_pattern (Str.strip h) = Some m ->
  Str.int16 (group_of m 1) = Some v ->
  parse_file (file_app pre (Line h tail)) = Returned (syms, total, pad) ->
  total = v.
Proof.
  intros Hpre Hm Hv H.
  rewrite parse_file_body, scan_file_app in H.
  rewrite (steps_no_header pre init_locals eq_refl Hpre) in H. simpl in H.
  rewrite (loop_body_header init_locals h m v eq_refl Hm Hv) in H.
  destruct (scan tail _) as [e|st] eqn:Hs; [discriminate|].
  apply scan_in_bss_total in Hs; [|reflexivity]. simpl in Hs.
  destruct (padding_pass _ 0 None). injection H as _ <- _. exact Hs.
Qed.

Lemma total_is_size_of_first_header_witness :
  exists syms pad,
    parse_file
      (file_app ["Memory map"]
         (Line bss_header_line
            (file_of_lines ["da7a0000 da7a0000 4 4 G_x";
                            "da7a0000 da7a0000 99 8 .bss";
                            "da7a0008 da7a0008 4 4 G_y"]))) =
    Returned (syms, 29824, pad).
Proof.
  assert (forall o : outcome parse_result,
            (forall syms total pad,
               o = Returned (syms, total, pad) -> total = 29824) ->
            (exists r, o = Returned r) ->
            exists syms pad, o = Returned (syms, 29824, pad)) as K.
  { intros o Ht [[[syms total] pad] Hr].
    exists syms, pad. rewrite Hr. now rewrite (Ht _ _ _ Hr). }
  apply K.
  - intros syms total pad.
    apply (total_is_size_of_first_header ["Memory map"] bss_header_line _
             [(1%nat, "7480")] 29824); vm_compute; reflexivity.
  - eexists. vm_compute. reflexivity.
Defined.

Lemma padding_pass_unpad syms : forall tp pe out total,
  padding_pass syms tp pe = (out, total) ->
  unpad <$> out = unpad <$> syms /\ tp <= total.
Proof.
  induction syms as [|s syms IH]; intros tp pe out total H; simpl in H.
  - injection H as <- <-. split; [reflexivity | lia].
  - destruct (match pe with Some _ => _ | None => _ end) as [s' tp'] eqn:Hs.
    destruct (padding_pass syms tp' _) as [out' total'] eqn:Hrec.
    injection H as <- <-.
    destruct (IH _ _ _ _ Hrec) as (H1 & H2).
    assert (unpad s' = unpad s /\ tp <= tp') as (E1 & E2).
    { destruct pe as [e|]; [destruct (0 <? vma s - e) eqn:Hp|];
        injection Hs as <- <-; split; try reflexivity; lia. }
    rewrite !fmap_cons, H1, E1. split; [reflexivity | lia].
Qed.

Lemma unpad_scanned l : Forall scanned_ok l -> unpad <$> l = l.
Proof.
  induction 1 as [|s l Hs _ IH]; [reflexivity|].
  rewrite fmap_cons, IH. f_equal.
  destruct Hs as (_ & _ & _ & _ & _ & _ & _ & Hp).
  destruct s; simpl in *. now subst.
Qed.

(** What a returned result is made of: the scanned symbols, sorted, with
    their paddings. *)
Lemma returned_scanned open_ path syms total pad :
  parse_map_file open_ path = Returned (syms, total, pad) ->
  exists f st,
    open_ path = inr f /\ scan f init_locals = inr st /\
    locals_ok st /\
    unpad <$> syms = sort_by vma (bss_symbols st) /\
    total = total_bss_size st /\ 0 <= pad.
Proof.
  intros H.
  apply parse_map_file_result in H as (f & st & Ho & Hs & _ & Hp & Ht).
  pose proof (scan_locals_ok _ _ Hs) as Hok.
  apply padding_pass_unpad in Hp as [Hu Hp].
  exists f, st.
  split; [exact Ho|]. split; [exact Hs|]. split; [exact Hok|].
  split; [|split; assumption].
  rewrite Hu. apply unpad_scanned. rewrite sort_by_perm. apply Hok.
Qed.

Lemma returned_symbols_ok open_ path syms total pad :
  parse_map_file open_ path = Returned (syms, total, pad) ->
  Forall (fun b => scanned_ok (unpad b)) syms.
Proof.
  intros H. apply returned_scanned in H as (f & st & _ & _ & Hok & Hu & _).
  assert (Forall scanned_ok (unpad <$> syms)) as HF
    by (rewrite Hu, sort_by_perm; apply Hok).
  rewrite Forall_fmap in HF. exact HF.
Qed.

(** X3.  In a returned result the numbers are consistent: every symbol's
    [size_hex] is a non-empty string of hexadecimal digits whose value is
    [size_dec]; sizes and addresses are not negative; neither are
    [total_bss_size] and [total_padding]. *)
Theorem returned_numbers_are_consistent open_ path syms total pad :
  parse_map_file open_ path = Returned (syms, total, pad) ->
  0 <= total /\ 0 <= pad /\
  Forall (fun s => hexplus (size_hex s) /\
                   Str.int16 (size_hex s) = Some (size_dec s) /\
                   0 <= size_dec s /\ 0 <= vma s) syms.
Proof.
  intros H. pose proof (returned_symbols_ok _ _ _ _ _ H) as Hall.
  apply returned_scanned in H as (f & st & _ & _ & (Ht & _) & _ & -> & Hp).
  split; [exact Ht|]. split; [exact Hp|].
  eapply Forall_impl; [exact Hall|]. simpl.
  intros s (_ & H1 & H2 & H3 & H4 & _). auto.
Qed.

Lemma returned_numbers_are_consistent_witness :
  0 <= 29824 /\ 0 <= 4 /\
  Forall (fun s => hexplus (size_hex s) /\
                   Str.int16 (size_hex s) = Some (size_dec s) /\
                   0 <= size_dec s /\ 0 <= vma s)
         [Symbol "G_a" "4" 4 256 "unknown" (Some 0);
          Symbol "G_b" "1F" 31 264 "unknown" (Some 4)].
Proof.
  apply (returned_numbers_are_consistent
           (single_file "app.map"
              (file_of_lines [bss_header_line; "108 108 1F 4 G_b";
                              "100 100 4 4 G_a"]))
           "app.map").
  vm_compute. reflexivity.
Defined.

(** X4.  Every returned symbol has a name of the identifier grammar (a
    letter or underscore, then letters, digits and the characters
    underscore, dollar, dot, at and star), so never an empty one; and no
    returned symbol is a zero-size [_bss] or [_ebss]. *)
Theorem returned_names_are_identifiers open_ path syms total pad :
  parse_map_file open_ path = Returned (syms, total, pad) ->
  Forall (fun s => is_ident (name s) = true /\ name s <> "" /\
                   is_linker_artifact s = false) syms.
Proof.
  intros H. pose proof (returned_symbols_ok _ _ _ _ _ H) as Hall.
  eapply Forall_impl; [exact Hall|]. simpl.
  intros s (H1 & _ & _ & _ & _ & _ & H2 & _). simpl in H1.
  repeat split; try assumption.
  intros E. rewrite E in H1. discriminate.
Qed.

Lemma returned_names_are_identifiers_witness :
  Forall (fun s => is_ident (name s) = true /\ name s <> "" /\
                   is_linker_artifact s = false)
         [Symbol "_bss" "4" 4 3665428480 "a.o" (Some 0);
          Symbol "G_io.buf$1" "8" 8 3665428484 "a.o" (Some 0)].
Proof.
  apply (returned_names_are_identifiers
           (single_file "app.map"
              (file_of_lines [bss_header_line;
                              "da7a0000 da7a0000 0 1 _bss";
                              "da7a0000 da7a0000 4 4 a.o:(.bss._bss)";
                              "da7a0004 da7a0004 8 4 a.o:(.bss.G_io.buf$1)";
                              "da7a000c da7a000c 8 4 9lives";
                              "da7a000c da7a000c 8 4 a.o:(.bss.)"]))
           "app.map" _ 29824 0).
  vm_compute. reflexivity.
Defined.

(** X5.  The object file of every returned symbol is the default
    "unknown" or a path ending in .o, .obj, .a, .lib, .elf or .s; it is
    never empty. *)
Theorem returned_object_files_are_known open_ path syms total pad :
  parse_map_file open_ path = Returned (syms, total, pad) ->
  Forall (fun s => known_object (object_file s) /\ object_file s <> "") syms.
Proof.
  intros H. pose proof (returned_symbols_ok _ _ _ _ _ H) as Hall.
  eapply Forall_impl; [exact Hall|]. simpl.
  intros s (_ & _ & _ & _ & _ & H1 & _). simpl in H1.
  split; [exact H1 | now apply known_object_nonempty].
Qed.

Lemma returned_object_files_are_known_witness :
  Forall (fun s => known_object (object_file s) /\ object_file s <> "")
         [Symbol "G_a" "4" 4 3665428480 "unknown" (Some 0);
          Symbol "G_b" "4" 4 3665428484 "lib/libc.a" (Some 0);
          Symbol "G_c" "4" 4 3665428488 "lib/libc.a" (Some 0)].
Proof.
  apply (returned_object_files_are_known
           (single_file "app.map"
              (file_of_lines [bss_header_line;
                              "da7a0000 da7a0000 4 4 G_a";
                              "da7a0004 da7a0004 4 4 lib/libc.a:(.bss.G_b)";
                              "da7a0008 da7a0008 4 4 main.c:(.bss.G_c)"]))
           "app.map" _ 29824 0).
  vm_compute. reflexivity.
Defined.

Lemma insert_by_stable {A} (key : A -> Z) k x l :
  List.filter (fun y => key y =? k) (insert_by key x l) =
  List.filter (fun y => key y =? k) (x :: l).
Proof.
  induction l as [|y l IH]; [reflexivity|].
  simpl insert_by. destruct (key x <=? key y) eqn:Hxy; [reflexivity|].
  apply Z.leb_gt in Hxy.
  change (List.filter (fun y0 => key y0 =? k) (y :: insert_by key x l))
    with (if key y =? k
          then y :: List.filter (fun y0 => key y0 =? k) (insert_by key x l)
          else List.filter (fun y0 => key y0 =? k) (insert_by key x l)).
  rewrite IH. simpl.
  destruct (key x =? k) eqn:Hx, (key y =? k) eqn:Hy; try reflexivity.
  apply Z.eqb_eq in Hx, Hy. lia.
Qed.

(** The sort is stable: elements with the same key keep their order. *)
Lemma sort_by_stable {A} (key : A -> Z) k l :
  List.filter (fun y => key y =? k) (sort_by key l) =
  List.filter (fun y => key y =? k) l.
Proof.
  induction l as [|x l IH]; [reflexivity|].
  simpl sort_by. rewrite insert_by_stable. simpl. now rewrite IH.
Qed.

(** X6.  Sorting and padding lose and invent nothing: apart from the
    paddings, the returned list is a rearrangement of the list the scan
    collected, and the symbols that share an address stay in the order in
    which the scan first saw them. *)
Theorem returned_list_is_stable_rearrangement open_ path syms total pad :
  parse_map_file open_ path = Returned (syms, total, pad) ->
  exists f st,
    open_ path = inr f /\ scan f init_locals = inr st /\
    unpad <$> syms ≡ₚ bss_symbols st /\
    forall a,
      List.filter (fun s => vma s =? a) (unpad <$> syms) =
      List.filter (fun s => vma s =? a) (bss_symbols st).
Proof.
  intros H. apply returned_scanned in H as (f & st & Ho & Hs & _ & Hu & _).
  exists f, st. split; [exact Ho|]. split; [exact Hs|]. rewrite Hu. split.
  - apply sort_by_perm.
  - intros a. apply sort_by_stable.
Qed.

Lemma returned_list_is_stable_rearrangement_witness :
  exists st,
    scan (file_of_lines [bss_header_line; "20 20 4 4 G_late";
                         "10 10 0 1 G_first"; "10 10 4 4 G_second"])
         init_locals = inr st /\
    List.filter (fun s => vma s =? 16)
      (unpad <$> [Symbol "G_first" "0" 0 16 "unknown" (Some 0);
                  Symbol "G_second" "4" 4 16 "unknown" (Some 0);
                  Symbol "G_late" "4" 4 32 "unknown" (Some 12)]) =
    List.filter (fun s => vma s =? 16) (bss_symbols st).
Proof.
  destruct (returned_list_is_stable_rearrangement
              (single_file "app.map"
                 (file_of_lines [bss_header_line; "20 20 4 4 G_late";
                                 "10 10 0 1 G_first"; "10 10 4 4 G_second"]))
              "app.map"
              [Symbol "G_first" "0" 0 16 "unknown" (Some 0);
               Symbol "G_second" "4" 4 16 "unknown" (Some 0);
               Symbol "G_late" "4" 4 32 "unknown" (Some 12)] 29824 12)
    as (f & st & Ho & Hs & _ & Hf).
  - vm_compute. reflexivity.
  - injection Ho as <-. exists st. split; [exact Hs | apply Hf].
Defined.

Lemma chain_span l :
  (forall i a b, l !! i = Some a -> l !! S i = Some b ->
     padding_of b = Z.max 0 (vma b - end_of a)) ->
  forall first lst, l !! 0%nat = Some first -> last l = Some lst ->
  end_of lst - vma first <= sum_sizes l + sum_padding l - padding_of first /\
  ((forall i a b, l !! i = Some a -> l !! S i = Some b ->
      end_of a <= vma b) ->
   sum_sizes l + sum_padding l - padding_of first = end_of lst - vma first).
Proof.
  induction l as [|x l IH]; intros Hchain first lst Hf Hl; [discriminate|].
  simpl in Hf. injection Hf as <-.
  destruct l as [|y l].
  - simpl in Hl. injection Hl as <-. unfold end_of. simpl. lia.
  - assert (last (y :: l) = Some lst) as Hl' by exact Hl.
    destruct (IH (fun i a b Ha Hb => Hchain (S i) a b Ha Hb) y lst eq_refl Hl')
      as [Hle Heq].
    pose proof (Hchain 0%nat x y eq_refl eq_refl) as Hy.
    change (sum_sizes (x :: y :: l)) with (size_dec x + sum_sizes (y :: l)).
    change (sum_padding (x :: y :: l))
      with (padding_of x + sum_padding (y :: l)).
    unfold end_of in *. split; [lia|].
    intros Hno.
    pose proof (Hno 0%nat x y eq_refl eq_refl) as Hxy.
    specialize (Heq (fun i a b Ha Hb => Hno (S i) a b Ha Hb)). lia.
Qed.

(** X7.  The sizes and the paddings of a returned result cover the
    address range of the symbols: the distance from the start of the
    first symbol to the end of the last is at most the sum of the sizes
    plus [total_padding], and exactly that sum when no symbol starts
    before the end of the one before it. *)
Theorem sizes_and_padding_cover_the_span open_ path syms total pad first lst :
  parse_map_file open_ path = Returned (syms, total, pad) ->
  syms !! 0%nat = Some first -> last syms = Some lst ->
  end_of lst - vma first <= sum_sizes syms + pad /\
  ((forall i a b, syms !! i = Some a -> syms !! S i = Some b ->
      end_of a <= vma b) ->
   sum_sizes syms + pad = end_of lst - vma first).
Proof.
  intros H Hf Hl.
  apply parse_map_file_result in H as (f & st & _ & _ & _ & Hpad & _).
  destruct (padding_pass_spec _ _ _ _ _ Hpad) as (H0 & Hnext & Htot).
  assert (padding_of first = 0) as Hp0
    by (unfold padding_of; now rewrite (H0 _ Hf)).
  destruct (chain_span syms) with (first := first) (lst := lst)
    as [Hle Heq]; try assumption.
  { intros i a b Ha Hb. unfold padding_of.
    now rewrite (Hnext _ _ _ Ha Hb). }
  split; [lia|]. intros Hno. specialize (Heq Hno). lia.
Qed.

Lemma sizes_and_padding_cover_the_span_witness :
  end_of (Symbol "G_c" "8" 8 288 "unknown" (Some 12)) -
    vma (Symbol "G_a" "4" 4 256 "unknown" (Some 0)) <=
  sum_sizes [Symbol "G_a" "4" 4 256 "unknown" (Some 0);
             Symbol "G_b" "10" 16 260 "unknown" (Some 0);
             Symbol "G_c" "8" 8 288 "unknown" (Some 12)] + 12.
Proof.
  apply (sizes_and_padding_cover_the_span
           (single_file "app.map"
              (file_of_lines [bss_header_line; "100 100 4 4 G_a";
                              "120 120 8 4 G_c"; "104 104 10 4 G_b"]))
           "app.map" _ 29824).
  - vm_compute. reflexivity.
  - reflexivity.
  - reflexivity.
Defined.

(** * Properties of [print_symbols] *)

Lemma str_length_app a b :
  String.length (a +:+ b) = (String.length a + String.length b)%nat.
Proof. induction a; simpl; [reflexivity | now rewrite IHa]. Qed.

Lemma repeat_char_length c n : String.length (Fmt.repeat_char c n) = n.
Proof. induction n; simpl; [reflexivity | now rewrite IHn]. Qed.

Lemma ljust_length s w :
  (String.length s <= w)%nat -> String.length (Fmt.ljust s w) = w.
Proof.
  intros H. unfold Fmt.ljust. rewrite str_length_app, repeat_char_length. lia.
Qed.

Lemma rjust_length s w :
  (String.length s <= w)%nat -> String.length (Fmt.rjust s w) = w.
Proof.
  intros H. unfold Fmt.rjust. rewrite str_length_app, repeat_char_length. lia.
Qed.

Lemma table_row_length w a b c d :
  (String.length a <= w_name w)%nat -> (String.length b <= w_size w)%nat ->
  (String.length c <= w_pct w)%nat -> (String.length d <= w_obj w)%nat ->
  String.length (table_row w a b c d) = row_width w.
Proof.
  intros Ha Hb Hc Hd. unfold table_row, row_width.
  rewrite !str_length_app, !ljust_length, !rjust_length by assumption.
  simpl. lia.
Qed.

(** The width loop does not raise when the total is not zero; the columns
    it returns hold every symbol and are no narrower than before. *)
Lemma widths_loop_spec pct total hx syms : forall w,
  total <> 0 ->
  exists w', widths_loop pct syms total hx w = inr w' /\
             widths_le w w' /\ Forall (fits pct total hx w') syms.
Proof.
  induction syms as [|s syms IH]; intros w Ht; simpl.
  - exists w. unfold widths_le. repeat split; auto.
  - unfold percent_text. destruct (total =? 0) eqn:E;
      [apply Z.eqb_eq in E; contradiction|].
    destruct (IH (ColWidths
                    (Nat.max (w_name w) (String.length (name s)))
                    (Nat.max (w_size w)
                       (String.length (size_text hx (size_dec s))))
                    (Nat.max (w_pct w)
                       (String.length (pct (size_dec s) total +:+ "%")))
                    (Nat.max (w_obj w) (String.length (object_file s)))) Ht)
      as (w' & -> & (L1 & L2 & L3 & L4) & Hall).
    simpl in L1, L2, L3, L4.
    exists w'. split; [reflexivity|]. split.
    + unfold widths_le. lia.
    + constructor; [|exact Hall]. unfold fits. lia.
Qed.

(** The row loop lists the shown symbols in order, counts them, and adds
    up all the sizes and the sizes shown. *)
Lemma rows_loop_spec pct total sdk mn hx w syms : forall nb ss cs,
  rows_loop pct syms total sdk mn hx w nb ss cs =
  (row_of pct total hx w <$> List.filter (shown sdk mn) syms,
   (nb + Z.of_nat (length (List.filter (shown sdk mn) syms)),
    ss + sum_sizes syms,
    cs + sum_sizes (List.filter (shown sdk mn) syms))).
Proof.
  induction syms as [|s syms IH]; intros nb ss cs.
  - simpl. repeat (apply pair_equal_spec; split); try reflexivity; lia.
  - change (List.filter (shown sdk mn) (s :: syms))
      with (if shown sdk mn s then s :: List.filter (shown sdk mn) syms
            else List.filter (shown sdk mn) syms).
    change (sum_sizes (s :: syms)) with (size_dec s + sum_sizes syms).
    simpl rows_loop.
    destruct (size_dec s <? mn) eqn:E1.
    + assert (shown sdk mn s = false) as ->
        by (unfold shown; now rewrite E1).
      rewrite IH. repeat (apply pair_equal_spec; split); try reflexivity; lia.
    + destruct (negb sdk && Str.contains "/obj/sdk/" (object_file s)) eqn:E2.
      * assert (shown sdk mn s = false) as ->
          by (unfold shown; now rewrite E1, E2).
        rewrite IH. repeat (apply pair_equal_spec; split); try reflexivity; lia.
      * assert (shown sdk mn s = true) as ->
          by (unfold shown; now rewrite E1, E2).
        rewrite IH. rewrite fmap_cons.
        change (sum_sizes (s :: List.filter (shown sdk mn) syms))
          with (size_dec s + sum_sizes (List.filter (shown sdk mn) syms)).
        change (length (s :: List.filter (shown sdk mn) syms))
          with (S (length (List.filter (shown sdk mn) syms))).
        unfold row_of.
        repeat (apply pair_equal_spec; split); try reflexivity; lia.
Qed.

Lemma filter_perm {A} (f : A -> bool) l l' :
  l ≡ₚ l' -> List.filter f l ≡ₚ List.filter f l'.
Proof.
  induction 1 as [|x l l' _ IH|x y l|l1 l2 l3 _ IH1 _ IH2]; simpl.
  - reflexivity.
  - destruct (f x); [now constructor | exact IH].
  - destruct (f x), (f y); try reflexivity. apply Permutation_swap.
  - etrans; eassumption.
Qed.

Lemma sum_sizes_perm l l' : l ≡ₚ l' -> sum_sizes l = sum_sizes l'.
Proof.
  induction 1 as [|x l l' _ IH|x y l|l1 l2 l3 _ IH1 _ IH2]; simpl; lia.
Qed.

Lemma filter_strongly_sorted {A} (R : A -> A -> Prop) (f : A -> bool) l :
  StronglySorted R l -> StronglySorted R (List.filter f l).
Proof.
  induction 1 as [|x l Hs IH Hall]; simpl; [constructor|].
  destruct (f x); [|exact IH]. constructor; [exact IH|].
  rewrite Forall_forall in Hall. apply Forall_forall. intros y Hy.
  apply Hall. apply list_elem_of_In. apply list_elem_of_In in Hy.
  apply filter_In in Hy. tauto.
Qed.

(** The whole output of [print_symbols] when the total is not zero. *)
Lemma print_symbols_output pct syms total tp sdk mn hx :
  total <> 0 ->
  exists w,
    widths_le header_widths w /\
    Forall (fits pct total hx w) (sort_by_desc size_dec syms) /\
    print_symbols pct syms total tp sdk mn hx =
    ([ "--- BSS Symbols ---"; header_line_of w;
       Fmt.repeat_char "-" (String.length (header_line_of w)) ] ++
     (row_of pct total hx w <$>
        List.filter (shown sdk mn) (sort_by_desc size_dec syms)) ++
     [ Fmt.repeat_char "-" (String.length (header_line_of w)) ] ++
     totals_lines (length (sort_by_desc size_dec syms)) total tp sdk mn hx pct
       (Z.of_nat (length (List.filter (shown sdk mn)
                            (sort_by_desc size_dec syms))))
       (sum_sizes (sort_by_desc size_dec syms))
       (sum_sizes (List.filter (shown sdk mn) (sort_by_desc size_dec syms))),
     None).
Proof.
  intros Ht. unfold print_symbols.
  destruct (widths_loop_spec pct total hx (sort_by_desc size_dec syms)
              header_widths Ht) as (w & Hw & Hle & Hall).
  exists w. split; [exact Hle|]. split; [exact Hall|].
  change (ColWidths (String.length "Symbol Name") (String.length "Size (B)")
            (String.length "% of BSS") (String.length "Object File"))
    with header_widths.
  rewrite Hw, rows_loop_spec. reflexivity.
Qed.

(** ** Within the limits of integer formatting and division *)

Lemma sum_sizes_abs l : Z.abs (sum_sizes l) <= sum_abs_sizes l.
Proof. induction l as [|s l IH]; simpl; lia. Qed.

Lemma sum_abs_sizes_nonneg l : 0 <= sum_abs_sizes l.
Proof. induction l as [|s l IH]; simpl; lia. Qed.

Lemma sum_abs_sizes_filter (f : symbol -> bool) l :
  sum_abs_sizes (List.filter f l) <= sum_abs_sizes l.
Proof.
  induction l as [|s l IH]; simpl; [lia|].
  destruct (f s); simpl; lia.
Qed.

Lemma sum_abs_sizes_elem s l :
  In s l -> Z.abs (size_dec s) <= sum_abs_sizes l.
Proof.
  induction l as [|x l IH]; intros []; simpl.
  - subst. pose proof (sum_abs_sizes_nonneg l). lia.
  - specialize (IH H). lia.
Qed.

Lemma modest_limits :
  0 < 2 ^ 1000 /\ 4 * 2 ^ 1000 <= 10 ^ 4300 /\
  4 * 2 ^ 1000 <= 2 ^ 1024 - 2 ^ 970.
Proof.
  split; [|split]; [apply Z.ltb_lt | apply Z.leb_le | apply Z.leb_le];
    vm_compute; reflexivity.
Qed.

Lemma small_is_ok n d :
  Z.abs n < 4 * 2 ^ 1000 -> decimal_ok n /\ (d <> 0 -> quotient_ok n d).
Proof.
  unfold decimal_ok, quotient_ok.
  destruct modest_limits as (H0 & H1 & H2).
  generalize dependent (2 ^ 1000). generalize (10 ^ 4300).
  generalize (2 ^ 1024 - 2 ^ 970). intros Q D A H0 H1 H2 Hn.
  split; [lia|]. intros Hd. split; [exact Hd|]. nia.
Qed.

Lemma filter_length_le (f : symbol -> bool) l :
  (length (List.filter f l) <= length l)%nat.
Proof. induction l as [|s l IH]; simpl; [lia|]. destruct (f s); simpl; lia. Qed.

(** Within the limits, every integer [print_symbols] formats has at most
    4300 digits and every quotient it takes is within the float range:
    the total and the padding (lines 355 and 366), each size and its
    share of the total (lines 300, 303, 330 and 332), the two sums and
    the two counts of lines 349 to 353, whatever the filters keep, and
    the differences and the share of lines 356 to 365. *)
Lemma within_limits_cover syms total tp :
  within_limits syms total tp ->
  decimal_ok total /\ decimal_ok tp /\
  Forall (fun s => decimal_ok (size_dec s) /\
                   (total <> 0 -> quotient_ok (size_dec s) total)) syms /\
  decimal_ok (sum_sizes syms) /\
  (forall f, decimal_ok (sum_sizes (List.filter f syms)) /\
             decimal_ok (Z.of_nat (length (List.filter f syms)))) /\
  decimal_ok (Z.of_nat (length syms)) /\
  decimal_ok (total - (sum_sizes syms + tp)) /\
  decimal_ok (total - sum_sizes syms) /\
  (total <> 0 -> quotient_ok (total - sum_sizes syms) total).
Proof.
  unfold within_limits, modest. intros (Ht & Hp & Hs & Hn).
  pose proof (sum_sizes_abs syms) as Hsum.
  destruct modest_limits as (H0 & _ & _).
  assert (forall n, Z.abs n < 4 * 2 ^ 1000 -> decimal_ok n) as Hdec
    by (intros n Hlt; apply (small_is_ok n 0 Hlt)).
  split; [apply Hdec; lia|].
  split; [apply Hdec; lia|].
  split.
  { apply Forall_forall. intros s Hs'. apply list_elem_of_In in Hs'.
    pose proof (sum_abs_sizes_elem s syms Hs').
    destruct (small_is_ok (size_dec s) total) as [Ha Hb]; [lia|].
    split; assumption. }
  split; [apply Hdec; lia|].
  split.
  { intros f. split; apply Hdec.
    - pose proof (sum_sizes_abs (List.filter f syms)).
      pose proof (sum_abs_sizes_filter f syms). lia.
    - pose proof (filter_length_le f syms). lia. }
  split; [apply Hdec; lia|].
  split; [apply Hdec; lia|].
  split; [apply Hdec; lia|].
  apply small_is_ok. lia.
Qed.

Ltac within_limits_by_computation :=
  unfold within_limits, modest, decimal_ok;
  repeat (split; [vm_compute; reflexivity|]); vm_compute; reflexivity.

Lemma print_symbols_quiet pct syms total tp sdk mn hx :
  total <> 0 \/ syms = [] ->
  snd (print_symbols pct syms total tp sdk mn hx) = None.
Proof.
  intros [Ht| ->].
  - destruct (print_symbols_output pct syms total tp sdk mn hx Ht)
      as (w & _ & _ & ->). reflexivity.
  - reflexivity.
Qed.

Lemma print_symbols_divides_by_zero pct s syms tp sdk mn hx :
  print_symbols pct (s :: syms) 0 tp sdk mn hx =
  (["--- BSS Symbols ---"], Some (Exn ZeroDivisionError "division by zero")).
Proof.
  unfold print_symbols.
  destruct (sort_by_desc size_dec (s :: syms)) as [|x l] eqn:Hsort.
  - assert (sort_by_desc size_dec (s :: syms) ≡ₚ s :: syms) as Hp
      by apply sort_by_perm.
    rewrite Hsort in Hp. now apply Permutation_nil_cons in Hp.
  - reflexivity.
Qed.

(** X8.  Within the limits of integer formatting and division,
    [print_symbols] raises only for a non-empty list with a zero total,
    and then it is [ZeroDivisionError]: with a total other than zero, or
    with no symbol at all, it does not raise. *)
Theorem print_symbols_raises_only_on_zero_total pct syms total tp sdk mn hx :
  within_limits syms total tp ->
  (total <> 0 \/ syms = [] ->
   snd (print_symbols pct syms total tp sdk mn hx) = None) /\
  (forall e, snd (print_symbols pct syms total tp sdk mn hx) = Some e ->
     total = 0 /\ syms <> [] /\
     e = Exn ZeroDivisionError "division by zero").
Proof.
  intros _. split; [apply print_symbols_quiet|].
  intros e He.
  destruct (Z.eq_dec total 0) as [->|Hne];
    [|rewrite print_symbols_quiet in He by (now left); discriminate].
  destruct syms as [|s syms];
    [rewrite print_symbols_quiet in He by (now right); discriminate|].
  rewrite print_symbols_divides_by_zero in He. simpl in He.
  injection He as <-. repeat split. discriminate.
Qed.

Lemma print_symbols_raises_only_on_zero_total_witness :
    snd (print_symbols example_percent_2f
           [Symbol "G_x" "4" 4 16 "build/obj/sdk/os.o" (Some 0)]
           32 0 false 8 true) = None.
Proof.
  assert (within_limits
            [Symbol "G_x" "4" 4 16 "build/obj/sdk/os.o" (Some 0)] 32 0) as Hl
    by within_limits_by_computation.
  apply (proj1 (print_symbols_raises_only_on_zero_total
                  example_percent_2f _ 32 0 false 8 true Hl)).
  left. lia.
Defined.

(** X9.  The table is aligned: within the limits of integer formatting
    and division and with a total other than zero, the header line, the
    two rules and every row have the same length, and there is one row
    for each symbol that passes the size and SDK filters. *)
Theorem print_symbols_table_is_aligned pct syms total tp sdk mn hx :
  within_limits syms total tp ->
  total <> 0 ->
  exists header rule rows rest,
    fst (print_symbols pct syms total tp sdk mn hx) =
      ["--- BSS Symbols ---"; header; rule] ++ rows ++ rule :: rest /\
    String.length rule = String.length header /\
    Forall (fun r => String.length r = String.length header) rows /\
    length rows = length (List.filter (shown sdk mn) syms).
Proof.
  intros _ Ht.
  destruct (print_symbols_output pct syms total tp sdk mn hx Ht)
    as (w & (L1 & L2 & L3 & L4) & Hfit & ->).
  simpl in L1, L2, L3, L4.
  assert (String.length (header_line_of w) = row_width w) as Hh
    by (apply table_row_length; simpl; lia).
  eexists _, _, _, _. split; [reflexivity|].
  split; [apply repeat_char_length|]. split.
  - rewrite Hh. apply Forall_fmap, Forall_forall. intros s Hs.
    apply list_elem_of_In, filter_In in Hs as [Hs _].
    rewrite Forall_forall in Hfit.
    destruct (Hfit s) as (F1 & F2 & F3 & F4); [now apply list_elem_of_In|].
    apply table_row_length; try assumption.
    unfold guarded_percent. destruct (0 <? total); [exact F3|]. simpl. lia.
  - rewrite length_fmap. apply Permutation_length, filter_perm, sort_by_perm.
Qed.

Lemma print_symbols_table_is_aligned_witness :
  exists header rule rows rest,
    fst (print_symbols example_percent_2f
           [Symbol "G_x" "4" 4 16 "unknown" (Some 0);
            Symbol "G_long_name_of_a_buffer" "400" 1024 32 "a.o" (Some 12)]
           2048 12 true 0 true) =
      ["--- BSS Symbols ---"; header; rule] ++ rows ++ rule :: rest /\
    String.length rule = String.length header /\
    Forall (fun r => String.length r = String.length header) rows /\
    length rows = 2%nat.
Proof.
  apply print_symbols_table_is_aligned;
    [within_limits_by_computation | lia].
Defined.

(** X10.  Within the limits of integer formatting and division and
    with a total other than zero, the rows list the symbols that pass
    the filters, largest first: they are the rows of a rearrangement of
    the filtered input in which no symbol comes before a larger one. *)
Theorem print_symbols_lists_largest_first pct syms total tp sdk mn hx :
  within_limits syms total tp ->
  total <> 0 ->
  exists w listed rest,
    fst (print_symbols pct syms total tp sdk mn hx) =
      ["--- BSS Symbols ---"; header_line_of w;
       Fmt.repeat_char "-" (String.length (header_line_of w))] ++
      (row_of pct total hx w <$> listed) ++ rest /\
    listed ≡ₚ List.filter (shown sdk mn) syms /\
    forall i j a b, (i <= j)%nat -> listed !! i = Some a ->
                    listed !! j = Some b -> size_dec b <= size_dec a.
Proof.
  intros _ Ht.
  destruct (print_symbols_output pct syms total tp sdk mn hx Ht)
    as (w & _ & _ & ->).
  eexists w, _, _. split; [reflexivity|]. split.
  - apply filter_perm, sort_by_perm.
  - intros i j a b Hij Ha Hb.
    pose proof (strongly_sorted_ascending (fun s => - size_dec s) _
                  (filter_strongly_sorted _ (shown sdk mn) _
                     (sort_by_sorted (fun s => - size_dec s) syms))
                  i j a b Hij Ha Hb) as H.
    simpl in H. lia.
Qed.

Lemma print_symbols_lists_largest_first_witness :
  exists w listed rest,
    fst (print_symbols example_percent_2f
           [Symbol "G_small" "4" 4 16 "unknown" (Some 0);
            Symbol "G_sdk" "100" 256 64 "build/obj/sdk/os.o" (Some 0);
            Symbol "G_big" "400" 1024 512 "a.o" (Some 0)]
           2048 0 false 0 false) =
      ["--- BSS Symbols ---"; header_line_of w;
       Fmt.repeat_char "-" (String.length (header_line_of w))] ++
      (row_of example_percent_2f 2048 false w <$> listed) ++ rest /\
    listed ≡ₚ [Symbol "G_small" "4" 4 16 "unknown" (Some 0);
               Symbol "G_big" "400" 1024 512 "a.o" (Some 0)].
Proof.
  destruct (print_symbols_lists_largest_first example_percent_2f
              [Symbol "G_small" "4" 4 16 "unknown" (Some 0);
               Symbol "G_sdk" "100" 256 64 "build/obj/sdk/os.o" (Some 0);
               Symbol "G_big" "400" 1024 512 "a.o" (Some 0)]
              2048 0 false 0 false) as (w & listed & rest & H1 & H2 & _).
  - within_limits_by_computation.
  - lia.
  - exists w, listed, rest. split; [exact H1 | exact H2].
Defined.

(** X11.  Hidden symbols still count in the totals: within the limits
    of integer formatting and division and with a total other than zero,
    the accumulated size [print_symbols] reports is the sum of the sizes
    of all the symbols it was given, the count is the number of rows, and
    when a filter is active both are shown against the unfiltered
    figures. *)
Theorem print_symbols_totals_count_hidden_symbols
    pct syms total tp sdk mn hx :
  within_limits syms total tp ->
  total <> 0 ->
  let listed := List.filter (shown sdk mn) syms in
  let out := fst (print_symbols pct syms total tp sdk mn hx) in
  if negb (mn =? 0) || negb sdk then
    In ("Total BSS Symbols found: " +:+
          Fmt.dec (Z.of_nat (length listed)) +:+ " / " +:+
          Fmt.dec (Z.of_nat (length syms))) out /\
    In ("Total accumulated size: " +:+ Fmt.dec (sum_sizes listed) +:+
          " / " +:+ Fmt.dec (sum_sizes syms) +:+ " Bytes") out
  else
    In ("Total BSS Symbols found: " +:+
          Fmt.dec (Z.of_nat (length listed))) out /\
    In ("Total accumulated size: " +:+ Fmt.dec (sum_sizes syms) +:+
          " Bytes") out.
Proof.
  intros _ Ht listed out. subst listed out.
  destruct (print_symbols_output pct syms total tp sdk mn hx Ht)
    as (w & _ & _ & ->).
  assert (sort_by_desc size_dec syms ≡ₚ syms) as Hp by apply sort_by_perm.
  rewrite (sum_sizes_perm _ _ Hp).
  rewrite (sum_sizes_perm _ _ (filter_perm (shown sdk mn) _ _ Hp)).
  rewrite (Permutation_length (filter_perm (shown sdk mn) _ _ Hp)).
  rewrite (Permutation_length Hp).
  unfold fst, totals_lines.
  destruct (negb (mn =? 0) || negb sdk);
    split; do 3 (apply in_or_app; right); apply in_or_app; left;
    simpl; auto.
Qed.

Lemma print_symbols_totals_count_hidden_symbols_witness :
    In "Total BSS Symbols found: 1 / 2"
       (fst (print_symbols example_percent_2f
               [Symbol "G_small" "4" 4 16 "unknown" (Some 0);
                Symbol "G_big" "400" 1024 512 "a.o" (Some 0)]
               2048 0 true 8 false)) /\
    In "Total accumulated size: 1024 / 1028 Bytes"
       (fst (print_symbols example_percent_2f
               [Symbol "G_small" "4" 4 16 "unknown" (Some 0);
                Symbol "G_big" "400" 1024 512 "a.o" (Some 0)]
               2048 0 true 8 false)).
Proof.
  apply (print_symbols_totals_count_hidden_symbols example_percent_2f
           [Symbol "G_small" "4" 4 16 "unknown" (Some 0);
            Symbol "G_big" "400" 1024 512 "a.o" (Some 0)]
           2048 0 true 8 false);
    [within_limits_by_computation | lia].
Defined.

(** * Properties of [main] *)

Lemma parse_map_file_not_propagated open_ path e :
  parse_map_file open_ path = Propagated e -> False.
Proof.
  intros H. destruct (parse_body open_ path) as [e'|r] eqn:Hb.
  - rewrite (parse_map_file_raised _ _ _ Hb) in H. discriminate.
  - rewrite (parse_map_file_returned _ _ _ Hb) in H. discriminate.
Qed.

(** X12.  Within the limits of integer formatting and division, [main]
    ends with an uncaught exception in one case only: the parser found
    symbols under a section header of size 0.  Then it is the
    [ZeroDivisionError] of [print_symbols], raised after the summary and
    the banner are printed.  An exception never comes out of
    [parse_map_file]. *)
Theorem main_raises_only_on_zero_total open_ pct args :
  (forall out e,
     main open_ pct args = (out, Propagated e) ->
     exists syms total pad,
       parse_map_file open_ (arg_input args) = Returned (syms, total, pad) /\
       (within_limits syms total pad ->
        syms <> [] /\ total = 0 /\
        e = Exn ZeroDivisionError "division by zero")) /\
  (forall s syms pad,
     parse_map_file open_ (arg_input args) = Returned (s :: syms, 0, pad) ->
     within_limits (s :: syms) 0 pad ->
     main open_ pct args =
     (print_summary 0 (arg_hexa args) ++ ["--- BSS Symbols ---"],
      Propagated (Exn ZeroDivisionError "division by zero"))).
Proof.
  split.
  - intros out e. unfold main.
    destruct (parse_map_file open_ (arg_input args))
      as [[[syms total] pad]|st err|e'] eqn:Hp.
    + destruct syms as [|s syms].
      * destruct (total =? 0); [discriminate|].
        destruct (0 <? total); [discriminate|].
        destruct (print_symbols pct [] total pad _ _ _) as [o r] eqn:Hps.
        assert (r = None) as ->.
        { change r with (snd (o, r)). rewrite <- Hps.
          apply print_symbols_quiet. now right. }
        discriminate.
      * destruct (Z.eq_dec total 0) as [->|Hne].
        -- rewrite print_symbols_divides_by_zero. intros [= _ <-].
           exists (s :: syms), 0, pad. split; [reflexivity|].
           intros _. repeat split. discriminate.
        -- destruct (print_symbols pct (s :: syms) total pad _ _ _)
             as [o r] eqn:Hps.
           assert (r = None) as ->.
           { change r with (snd (o, r)). rewrite <- Hps.
             apply print_symbols_quiet. now left. }
           discriminate.
    + discriminate.
    + now apply parse_map_file_not_propagated in Hp.
  - intros s syms pad Hp _. unfold main. rewrite Hp.
    now rewrite print_symbols_divides_by_zero.
Qed.

Lemma main_raises_only_on_zero_total_witness :
    main (single_file "app.map"
            (file_of_lines ["0 0 0 8 .bss"; "10 10 4 4 G_x"]))
         example_percent_2f (Namespace "app.map" 0 false false) =
    (["--- BSS Section Summary ---"; "Total BSS Size: 0 Bytes";
      "--- BSS Symbols ---"],
     Propagated (Exn ZeroDivisionError "division by zero")).
Proof.
  apply (proj2 (main_raises_only_on_zero_total _ example_percent_2f
                  (Namespace "app.map" 0 false false))
           (Symbol "G_x" "4" 4 16 "unknown" (Some 0)) [] 0).
  - vm_compute. reflexivity.
  - within_limits_by_computation.
Defined.

(** X13.  When the parser returns no symbol and a total of at most 4300
    decimal digits, [main] never reaches the table: it prints the
    one-line notice if the total is 0 and the two-line notice with the
    total otherwise, and returns. *)
Theorem main_without_symbols open_ pct args total pad :
  parse_map_file open_ (arg_input args) = Returned ([], total, pad) ->
  decimal_ok total ->
  main open_ pct args =
  (if total =? 0 then [no_symbols_message]
   else no_extraction_messages total,
   Returned tt).
Proof.
  intros Hp _. unfold main. rewrite Hp.
  apply returned_scanned in Hp as (f & st & _ & _ & (Ht & _) & _ & -> & _).
  destruct (total_bss_size st =? 0) eqn:E0; [reflexivity|].
  apply Z.eqb_neq in E0.
  destruct (0 <? total_bss_size st) eqn:E1; [reflexivity|].
  apply Z.ltb_ge in E1. lia.
Qed.

Lemma main_without_symbols_witness :
    main (single_file "app.map"
            (file_of_lines [bss_header_line; "not a symbol line"]))
         example_percent_2f (Namespace "app.map" 0 true true) =
    (["BSS section has a total size of 29824 bytes, but no individual symbols were extracted.";
      "This might indicate that the symbol parsing patterns need further refinement for your specific map file format."],
     Returned tt).
Proof.
  apply (main_without_symbols _ example_percent_2f
           (Namespace "app.map" 0 true true) 29824 0).
  - vm_compute. reflexivity.
  - within_limits_by_computation.
Defined.

Lemma single_file_self path f : single_file path f path = inr f.
Proof. unfold single_file. now rewrite String.eqb_refl. Qed.

(** X14.  On a map file with no section header, whatever else it holds,
    [main] prints the single notice that no symbol was found and
    returns. *)
Theorem main_on_file_without_header path ls pct args :
  arg_input args = path ->
  forallb (fun l => negb (is_header l)) ls = true ->
  main (single_file path (file_of_lines ls)) pct args =
  ([no_symbols_message], Returned tt).
Proof.
  intros Hpath Hls. unfold main. rewrite Hpath.
  assert (parse_map_file (single_file path (file_of_lines ls)) path =
          Returned ([], 0, 0)) as ->.
  { apply parse_map_file_returned. unfold parse_body.
    rewrite single_file_self, file_of_lines_app, scan_file_app.
    now rewrite (steps_no_header ls init_locals eq_refl Hls). }
  reflexivity.
Qed.

Lemma main_on_file_without_header_witness :
    main (single_file "build/app.map"
            (file_of_lines ["Memory map"; "c0de0000 c0de0000 2c346 8 .text";
                            "c0de0010 c0de0010 4 4 G_x"]))
         example_percent_2f (Namespace "build/app.map" 16 true false) =
    ([no_symbols_message], Returned tt).
Proof.
  apply main_on_file_without_header.
  - reflexivity.
  - vm_compute. reflexivity.
Defined.

(** X15.  When the parser ends the process, [main] has printed nothing
    on the standard output; this is what happens, with status 1, when
    the input path cannot be opened. *)
Theorem main_exits_before_printing open_ pct args :
  (forall out status stderr,
     main open_ pct args = (out, SysExit status stderr) ->
     out = [] /\
     parse_map_file open_ (arg_input args) = SysExit status stderr) /\
  (forall e, open_ (arg_input args) = inl e ->
     exists msg, main open_ pct args = ([], SysExit 1 [msg])).
Proof.
  split.
  - intros out status stderr. unfold main.
    destruct (parse_map_file open_ (arg_input args))
      as [[[syms total] pad]|st err|e'] eqn:Hp.
    + destruct (print_symbols pct syms total pad _ _ _) as [o [r|]];
        destruct syms; [destruct (total =? 0), (0 <? total)| |
                        destruct (total =? 0), (0 <? total)|]; discriminate.
    + intros [= <- <- <-]. auto.
    + discriminate.
  - intros e Ho. unfold main.
    rewrite (parse_map_file_raised open_ (arg_input args) e).
    + eauto.
    + unfold parse_body. now rewrite Ho.
Qed.

Lemma main_exits_before_printing_witness :
  exists msg,
    main (single_file "app.map" Eof) example_percent_2f (Namespace "other.map" 0 false false)
    = ([], SysExit 1 [msg]).
Proof.
  apply (proj2 (main_exits_before_printing _ example_percent_2f
                  (Namespace "other.map" 0 false false))
           (Exn FileNotFoundError
              "[Errno 2] No such file or directory: 'other.map'")).
  reflexivity.
Defined.

(** * White space around lines *)

Lemma str_app_cons x a b : String x a +:+ b = String x (a +:+ b).
Proof. reflexivity. Qed.

Lemma str_app_nil_l b : "" +:+ b = b.
Proof. reflexivity. Qed.

Lemma rev_onto_app p : forall q acc,
  Str.rev_onto (p +:+ q) acc = Str.rev_onto q (Str.rev_onto p acc).
Proof.
  induction p as [|c p IH]; intros q acc.
  - now rewrite str_app_nil_l.
  - rewrite str_app_cons. simpl. apply IH.
Qed.

Lemma str_app_assoc a b c : (a +:+ b) +:+ c = a +:+ (b +:+ c).
Proof.
  induction a as [|x a IH].
  - now rewrite !str_app_nil_l.
  - now rewrite !str_app_cons, IH.
Qed.

Lemma rev_onto_acc s : forall acc,
  Str.rev_onto s acc = Str.rev s +:+ acc.
Proof.
  unfold Str.rev. induction s as [|c s IH]; intros acc; simpl.
  - now rewrite str_app_nil_l.
  - rewrite IH, (IH (String c "")), str_app_assoc.
    now rewrite str_app_cons, str_app_nil_l.
Qed.

Lemma rev_app p q : Str.rev (p +:+ q) = Str.rev q +:+ Str.rev p.
Proof.
  unfold Str.rev at 1. rewrite rev_onto_app, rev_onto_acc. reflexivity.
Qed.

Lemma rev_involutive s : Str.rev (Str.rev s) = s.
Proof.
  induction s as [|c s IH]; [reflexivity|].
  change (String c s) with (String c "" +:+ s) at 1.
  rewrite rev_app, rev_app, IH. reflexivity.
Qed.

Lemma lstrip_suffix s : exists p, s = p +:+ Str.lstrip s.
Proof.
  induction s as [|c s [p Hp]]; [now exists ""|]. simpl.
  destruct (Chr.is_space c).
  - exists (String c p). rewrite str_app_cons. now f_equal.
  - now exists "".
Qed.

Lemma lstrip_head s c t :
  Str.lstrip s = String c t -> Chr.is_space c = false.
Proof.
  induction s as [|d s IH]; simpl; [discriminate|].
  destruct (Chr.is_space d) eqn:E; [exact IH|].
  now intros [= <- _].
Qed.

Lemma lstrip_fixed c t :
  Chr.is_space c = false -> Str.lstrip (String c t) = String c t.
Proof. intros H. simpl. now rewrite H. Qed.

Lemma lstrip_idempotent s : Str.lstrip (Str.lstrip s) = Str.lstrip s.
Proof.
  destruct (Str.lstrip s) as [|c t] eqn:E; [reflexivity|].
  apply lstrip_fixed. eapply lstrip_head. eassumption.
Qed.

(** Stripping twice is stripping once. *)
Lemma strip_idempotent s : Str.strip (Str.strip s) = Str.strip s.
Proof.
  unfold Str.strip. set (a := Str.lstrip (Str.rev s)).
  set (b := Str.lstrip (Str.rev a)).
  assert (Str.lstrip (Str.rev b) = Str.rev b) as ->.
  { destruct (lstrip_suffix (Str.rev a)) as [p Hp]. fold b in Hp.
    assert (a = Str.rev b +:+ Str.rev p) as Ha
      by (rewrite <- rev_app, <- Hp; symmetry; apply rev_involutive).
    destruct (Str.rev b) as [|c t] eqn:Hb; [reflexivity|].
    apply lstrip_fixed. simpl in Ha.
    apply (lstrip_head (Str.rev s) c (t +:+ Str.rev p)). exact Ha. }
  rewrite rev_involutive. apply lstrip_idempotent.
Qed.

Lemma loop_body_strip st l : loop_body st (Str.strip l) = loop_body st l.
Proof. unfold loop_body. now rewrite strip_idempotent. Qed.

Lemma loop_body_blank st l : is_blank l = true -> loop_body st l = Continue st.
Proof. unfold is_blank, loop_body. now intros ->. Qed.

Lemma steps_clean ls : forall st, steps (clean_lines ls) st = steps ls st.
Proof.
  unfold clean_lines.
  induction ls as [|l ls IH]; intros st; [reflexivity|]. simpl.
  destruct (is_blank l) eqn:Hb; simpl.
  - now rewrite (loop_body_blank st l Hb).
  - rewrite loop_body_strip. destruct (loop_body st l); auto.
Qed.

(** X16.  White space around a line and blank lines do not matter: the
    result for a file is the result for its non-blank lines, each
    stripped of leading and trailing white space. *)
Theorem surrounding_white_space_is_ignored ls :
  parse_lines (clean_lines ls) = parse_lines ls.
Proof.
  unfold parse_lines.
  rewrite !parse_file_body, !file_of_lines_app, !scan_file_app.
  now rewrite steps_clean.
Qed.
